(** * Per-session streaming buffer and transcript stabiliser of
      [websocket_server.py]

    A shallow embedding of [ServeClient] (audio buffer, recognition loop,
    segment stabiliser, output formatter) followed by the properties of the
    specification that were checked against it.

    Modelling conventions.
    - Python [float] quantities measured in seconds (offsets, durations,
      clock readings) are exact rationals [Q]; binary64 rounding is not
      modelled.  Every concrete value used below (0, 1, 2, 5, 25, 30, 45, ...)
      is an integer, so the float computation is exact there.
    - Python [int] is [Z]; [str] is [string], read as ASCII text.
    - A numpy array of samples is a [list sample]; the code never inspects a
      sample, only array lengths and slices.
    - [self] is passed explicitly and returned updated.
    - One iteration of the [while True] loop of [speech_to_text] and one call
      of [add_frames] are taken as atomic steps; the recognition engine and
      the wall clock are inputs of the step. *)

From Stdlib Require Import ZArith QArith Qminmax Qround Lqa Lia List String Ascii Bool.
Import ListNotations.

Local Open Scope string_scope.
Local Open Scope Z_scope.

(** ** Python primitives used by the source *)

(** [len(l)] *)
Definition len {A : Type} (l : list A) : Z := Z.of_nat (List.length l).

(** [l[i:]] : a negative start counts from the end, and both are clamped
    to the bounds of the list. *)
Definition slice_from {A : Type} (i : Z) (l : list A) : list A :=
  let start := if i <? 0 then Z.max 0 (len l + i) else Z.min i (len l) in
  skipn (Z.to_nat start) l.

(** [l[:-1]] *)
Definition all_but_last {A : Type} (l : list A) : list A := removelast l.

(** [l[-1]], where [None] stands for [IndexError]. *)
Fixpoint last_item {A : Type} (l : list A) : option A :=
  match l with
  | [] => None
  | [x] => Some x
  | _ :: l' => last_item l'
  end.

(** [int(x)] on a float: truncation towards zero. *)
Definition int (x : Q) : Z := Z.quot (Qnum x) (Z.pos (Qden x)).

(** [x < y] and [x > y] on floats. *)
Definition Qltb (x y : Q) : bool := negb (Qle_bool y x).

(** [c.isspace()] for an ASCII character: TAB, LF, VT, FF, CR, the four
    separators 0x1c-0x1f and the space. *)
Definition isspace (c : ascii) : bool :=
  let n := nat_of_ascii c in
  ((9 <=? n) && (n <=? 13) || (28 <=? n) && (n <=? 32))%nat.

Fixpoint lstrip (s : string) : string :=
  match s with
  | EmptyString => EmptyString
  | String c s' => if isspace c then lstrip s' else s
  end.

Fixpoint rstrip (s : string) : string :=
  match s with
  | EmptyString => EmptyString
  | String c s' =>
      match rstrip s' with
      | EmptyString => if isspace c then EmptyString else String c EmptyString
      | r => String c r
      end
  end.

(** [s.strip()] *)
Definition strip (s : string) : string := rstrip (lstrip s).

Definition lower_char (c : ascii) : ascii :=
  let n := nat_of_ascii c in
  if ((65 <=? n) && (n <=? 90))%nat then ascii_of_nat (n + 32) else c.

(** [s.lower()] *)
Fixpoint lower (s : string) : string :=
  match s with
  | EmptyString => EmptyString
  | String c s' => String (lower_char c) (lower s')
  end.

(** ** Data *)

Definition RATE : Z := 16000.

(** A [float32] audio sample. *)
Definition sample : Type := Q.

(** A segment returned by the recognition engine; offsets are relative to
    the start of the submitted window. *)
Module Segment.
Record t : Type := mk { text : string; start : Q; end_ : Q }.
End Segment.

(** An entry of the [transcript] list built by [update_segments]
    (the dict with keys ['start'], ['end'], ['text']). *)
Module Line.
Record t : Type := mk { start : Q; end_ : Q; text : string }.
End Line.

(** The mutable attributes of a [ServeClient].  [wrapper] is the [wrap]
    method of the [textwrap.TextWrapper(width=50)] created by [__init__];
    [textwrap] is not part of this repository and stays a parameter. *)
Record ServeClient : Type := mkServeClient {
  timestamp_offset : Q;
  frames_np : option (list sample);
  frames_offset : Q;
  text : list string;
  current_out : string;
  prev_out : string;
  t_start : option Q;
  same_output_threshold : Z;
  wrapper : string -> list string
}.

Definition show_prev_out_thresh : Q := 5%Q.
Definition add_pause_thresh : Q := 3%Q.
Definition pick_previous_segments : Z := 2.

(** [ServeClient.__init__], given [textwrap.TextWrapper.wrap] as a function
    of the width and the text. *)
Definition init (textwrap_wrap : Z -> string -> list string) : ServeClient :=
  {| timestamp_offset := 0%Q;
     frames_np := None;
     frames_offset := 0%Q;
     text := [];
     current_out := "";
     prev_out := "";
     t_start := None;
     same_output_threshold := 0;
     wrapper := textwrap_wrap 50 |}.

Definition set_timestamp_offset (v : Q) (self : ServeClient) : ServeClient :=
  mkServeClient v (frames_np self) (frames_offset self) (text self)
    (current_out self) (prev_out self) (t_start self)
    (same_output_threshold self) (wrapper self).

Definition set_frames_np (v : option (list sample)) (self : ServeClient) : ServeClient :=
  mkServeClient (timestamp_offset self) v (frames_offset self) (text self)
    (current_out self) (prev_out self) (t_start self)
    (same_output_threshold self) (wrapper self).

Definition set_frames_offset (v : Q) (self : ServeClient) : ServeClient :=
  mkServeClient (timestamp_offset self) (frames_np self) v (text self)
    (current_out self) (prev_out self) (t_start self)
    (same_output_threshold self) (wrapper self).

Definition set_text (v : list string) (self : ServeClient) : ServeClient :=
  mkServeClient (timestamp_offset self) (frames_np self) (frames_offset self) v
    (current_out self) (prev_out self) (t_start self)
    (same_output_threshold self) (wrapper self).

Definition set_current_out (v : string) (self : ServeClient) : ServeClient :=
  mkServeClient (timestamp_offset self) (frames_np self) (frames_offset self)
    (text self) v (prev_out self) (t_start self)
    (same_output_threshold self) (wrapper self).

Definition set_prev_out (v : string) (self : ServeClient) : ServeClient :=
  mkServeClient (timestamp_offset self) (frames_np self) (frames_offset self)
    (text self) (current_out self) v (t_start self)
    (same_output_threshold self) (wrapper self).

Definition set_t_start (v : option Q) (self : ServeClient) : ServeClient :=
  mkServeClient (timestamp_offset self) (frames_np self) (frames_offset self)
    (text self) (current_out self) (prev_out self) v
    (same_output_threshold self) (wrapper self).

Definition set_same_output_threshold (v : Z) (self : ServeClient) : ServeClient :=
  mkServeClient (timestamp_offset self) (frames_np self) (frames_offset self)
    (text self) (current_out self) (prev_out self) (t_start self)
    v (wrapper self).

(** ** [fill_output] *)

(** The [for seg in ...] loop of [fill_output], started from accumulator
    [acc]: an empty entry resets the accumulator, any other is appended. *)
Fixpoint fill_loop (acc : string) (segs : list string) : string :=
  match segs with
  | [] => acc
  | seg :: rest =>
      if String.eqb seg "" then fill_loop "" rest else fill_loop (acc ++ seg) rest
  end.

(** [fill_output(self, output)].  ["".join(text + output)] joins the
    characters of a string with the empty separator and is the identity;
    [" ".join(wrapped)] is [String.concat " " wrapped]. *)
Definition fill_output (self : ServeClient) (output : string) : string :=
  let pick_prev := Z.min (len (text self)) pick_previous_segments in
  let text_ := fill_loop "" (slice_from (- pick_prev) (text self)) in
  let wrapped := slice_from (-2) (wrapper self (text_ ++ output)) in
  String.concat " " wrapped.

(** ** [add_frames] *)

(** Lines 116-118, the first [if] of [add_frames]: the eviction. *)
Definition evict_history (self : ServeClient) : ServeClient :=
  match frames_np self with
  | Some frames =>
      if 45 * RATE <? len frames
      then set_frames_np (Some (slice_from (30 * RATE) frames))
             (set_frames_offset (frames_offset self + 45)%Q self)
      else self
  | None => self
  end.

(** [add_frames(self, frame_np)]: the eviction, then lines 119-122. *)
Definition add_frames (frame_np : list sample) (self : ServeClient) : ServeClient :=
  let self := evict_history self in
  match frames_np self with
  | None => set_frames_np (Some frame_np) self
  | Some frames => set_frames_np (Some (frames ++ frame_np)%list) self
  end.

(** ** [update_segments] *)

(** The [for i, s in enumerate(segments[:-1])] loop.  It appends to
    [self.text] and to [transcript] and overwrites [offset];
    [self.timestamp_offset] is only read. *)
Fixpoint complete_loop (duration : Q) (segs : list Segment.t)
    (st : ServeClient * list Line.t * option Q)
    : ServeClient * list Line.t * option Q :=
  match segs with
  | [] => st
  | s :: rest =>
      let '(self, transcript, _) := st in
      let text_ := Segment.text s in
      let self := set_text (text self ++ [text_])%list self in
      let start := (timestamp_offset self + Segment.start s)%Q in
      let end_ := (timestamp_offset self + Qmin duration (Segment.end_ s))%Q in
      complete_loop duration rest
        (self, (transcript ++ [Line.mk start end_ text_])%list,
         Some (Qmin duration (Segment.end_ s)))
  end.

(** [not len(self.text) or
     self.text[-1].strip().lower() != self.current_out.strip().lower()] *)
Definition not_last_line (self : ServeClient) : bool :=
  match last_item (text self) with
  | None => true
  | Some l => negb (String.eqb (lower (strip l)) (lower (strip (current_out self))))
  end.

(** [update_segments(self, segments, duration)].  The second component is
    [None] when [segments[-1]] raises [IndexError] (empty [segments]); the
    only caller passes a non-empty list. *)
Definition update_segments (segments : list Segment.t) (duration : Q)
    (self : ServeClient) : ServeClient * option (string * list Line.t) :=
  let self := set_current_out "" self in
  let '(self, transcript, offset) :=
    if 1 <? len segments
    then complete_loop duration (all_but_last segments) (self, [], None)
    else (self, [], None) in
  match last_item segments with
  | None => (self, None)
  | Some tail =>
      let self := set_current_out (current_out self ++ Segment.text tail) self in
      let self :=
        if String.eqb (strip (current_out self)) (strip (prev_out self))
           && negb (String.eqb (current_out self) "")
        then set_same_output_threshold (same_output_threshold self + 1) self
        else set_same_output_threshold 0 self in
      let '(self, transcript, offset) :=
        if 5 <? same_output_threshold self
        then
          let '(self, transcript) :=
            if not_last_line self
            then (set_text (text self ++ [current_out self])%list self,
                  (transcript ++
                   [Line.mk (timestamp_offset self)
                      (timestamp_offset self + duration)%Q
                      (current_out self)])%list)
            else (self, transcript) in
          (set_same_output_threshold 0 (set_current_out "" self),
           transcript, Some duration)
        else (set_prev_out (current_out self) self, transcript, offset) in
      let self :=
        match offset with
        | Some o => set_timestamp_offset (timestamp_offset self + o)%Q self
        | None => self
        end in
      (self, Some (fill_output self (current_out self), transcript))
  end.

(** ** [speech_to_text] *)

(** What [self.transcriber.transcribe] does on one call. *)
Inductive reply : Type :=
| Raises
| Returns (result : list Segment.t).

(** The successive readings of [time.time()] in the empty-result branch:
    for [self.t_start], for the [show_prev_out_thresh] test and for the
    [add_pause_thresh] test. *)
Record clock : Type := mkClock { time_0 : Q; time_1 : Q; time_2 : Q }.

(** How one iteration of the loop ends. *)
Inductive outcome : Type :=
| NoFrames                                       (* [frames_np is None]: continue *)
| TooShort                                       (* [duration < 1.0]: continue *)
| Logged                                         (* exception caught and logged *)
| Sent (output : string) (segments : list Line.t). (* [websocket.send(output)] *)

(** Lines 142-144: clip the audio when the current chunk exceeds 25 seconds. *)
Definition clip_audio (frames : list sample) (self : ServeClient) : ServeClient :=
  let chunk :=
    slice_from
      (int ((timestamp_offset self - frames_offset self) * inject_Z RATE)%Q)
      frames in
  if 25 * RATE <? len chunk
  then
    let duration := (inject_Z (len frames) / inject_Z RATE)%Q in
    set_timestamp_offset (frames_offset self + duration - 5)%Q self
  else self.

(** Lines 146-147: the audio handed to the engine. *)
Definition input_bytes (frames : list sample) (self : ServeClient) : list sample :=
  let samples_take :=
    Qmax 0 ((timestamp_offset self - frames_offset self) * inject_Z RATE)%Q in
  slice_from (int samples_take) frames.

(** Lines 154-157: the previous complete segment, unless it is a pause. *)
Definition initial_prompt (self : ServeClient) : option string :=
  match last_item (text self) with
  | Some l => if negb (String.eqb l "") then Some l else None
  | None => None
  end.

(** Lines 171-188: the engine returned no segment. *)
Definition empty_result (clk : clock) (self : ServeClient) : ServeClient * string :=
  let t0 := match t_start self with None => time_0 clk | Some t => t end in
  let self := set_t_start (Some t0) self in
  let output :=
    if Qltb (time_1 clk - t0)%Q show_prev_out_thresh
    then fill_output self ""
    else "" in
  let self :=
    match last_item (text self) with
    | Some l =>
        if negb (String.eqb l "") && Qltb add_pause_thresh (time_2 clk - t0)%Q
        then set_text (text self ++ [""])%list self
        else self
    | None => self
    end in
  (self, output).

(** The window an iteration submits, if it gets as far as the engine. *)
Definition input_sample (self : ServeClient) : option (list sample) :=
  match frames_np self with
  | None => None
  | Some frames =>
      let input := input_bytes frames (clip_audio frames self) in
      if Qltb (inject_Z (len input) / inject_Z RATE)%Q 1 then None else Some input
  end.

(** One iteration of the [while True] loop, the engine answering [r].
    [self.exit] is never set in this file and is left out; [websocket.send]
    is taken to succeed. *)
Definition speech_to_text_iter (r : reply) (clk : clock) (self : ServeClient)
    : ServeClient * outcome :=
  match frames_np self with
  | None => (self, NoFrames)
  | Some frames =>
      let self := clip_audio frames self in
      let input := input_bytes frames self in
      let duration := (inject_Z (len input) / inject_Z RATE)%Q in
      if Qltb duration 1 then (self, TooShort)
      else
        match r with
        | Raises => (self, Logged)
        | Returns result =>
            if negb (len result =? 0)
            then
              let self := set_t_start None self in
              match update_segments result duration self with
              | (self, Some (output, segments)) => (self, Sent output segments)
              | (self, None) => (self, Logged)
              end
            else
              let '(self, output) := empty_result clk self in
              (self, Sent output [])
        end
  end.

(** ** Sessions *)

(** The two activities of a session: the transport delivers a frame, or the
    recognition loop runs one iteration. *)
Inductive event : Type :=
| Ingest (frame_np : list sample)
| Iterate (r : reply) (clk : clock).

Definition step (self : ServeClient) (e : event) : ServeClient :=
  match e with
  | Ingest frame_np => add_frames frame_np self
  | Iterate r clk => fst (speech_to_text_iter r clk self)
  end.

Definition run (trace : list event) (self : ServeClient) : ServeClient :=
  fold_left step trace self.

(** States a session can be in: those reached from a fresh [ServeClient]. *)
Definition reachable (self : ServeClient) : Prop :=
  exists textwrap_wrap trace, self = run trace (init textwrap_wrap).

(** Whether [add_frames] would evict in this state. *)
Definition evicts (self : ServeClient) (e : event) : bool :=
  match e, frames_np self with
  | Ingest _, Some frames => 45 * RATE <? len frames
  | _, _ => false
  end.

(** No step of the trace evicts. *)
Fixpoint eviction_free (trace : list event) (self : ServeClient) : Prop :=
  match trace with
  | [] => True
  | e :: rest => evicts self e = false /\ eviction_free rest (step self e)
  end.

(** The engine reports no negative end offset. *)
Definition ends_nonneg (e : event) : Prop :=
  match e with
  | Iterate (Returns result) _ => Forall (fun s => (0 <= Segment.end_ s)%Q) result
  | _ => True
  end.

(** Frames delivered by the transport hold at most [n] samples. *)
Definition frame_at_most (n : Z) (e : event) : Prop :=
  match e with
  | Ingest frame_np => len frame_np <= n
  | Iterate _ _ => True
  end.

(** Number of samples in the buffer ([0] before the first frame). *)
Definition buffered (self : ServeClient) : Z :=
  match frames_np self with
  | Some frames => len frames
  | None => 0
  end.



(** Successive calls of [update_segments], one per recognition cycle, with
    the transcript lines they emit. *)
Fixpoint feed (cycles : list (list Segment.t * Q)) (self : ServeClient)
    : ServeClient * list Line.t :=
  match cycles with
  | [] => (self, [])
  | (segments, duration) :: rest =>
      let '(self1, r) := update_segments segments duration self in
      let '(self2, lines) := feed rest self1 in
      (self2, (match r with Some (_, tr) => tr | None => [] end ++ lines)%list)
  end.

(** A recognition cycle whose result is the single segment [fst c], for a
    window of [snd c] seconds. *)
Definition single (c : Segment.t * Q) : list Segment.t * Q := ([fst c], snd c).

(** The cycle returns candidate [c] again, up to surrounding whitespace. *)
Definition same_candidate (c : string) (cycle : Segment.t * Q) : Prop :=
  strip (Segment.text (fst cycle)) = strip c /\ Segment.text (fst cycle) <> "".

(** The transcript line [update_segments] emits for a complete segment. *)
Definition line_of (cursor duration : Q) (s : Segment.t) : Line.t :=
  Line.mk (cursor + Segment.start s)%Q
          (cursor + Qmin duration (Segment.end_ s))%Q
          (Segment.text s).

(** ** The formatter as the specification words it *)

Module OutputFormatter.

(** The last [k] entries of a sequence. *)
Definition last_entries {A : Type} (k : nat) (l : list A) : list A :=
  skipn (List.length l - k) l.

(** Walking from the most recent entry backward, accumulate until an
    empty-string sentinel is hit; the result is in chronological order. *)
Fixpoint walk_back (newest_first : list string) : list string :=
  match newest_first with
  | [] => []
  | line :: older =>
      if String.eqb line "" then [] else (walk_back older ++ [line])%list
  end.

Definition retained (committedLines : list string) : list string :=
  walk_back (rev (last_entries 2 committedLines)).

(** Retained committed text, then the provisional text, wrapped; the last
    two wrapped lines joined by a single space. *)
Definition render (wrap : string -> list string)
    (committedLines : list string) (provisionalText : string) : string :=
  String.concat " "
    (last_entries 2
       (wrap (String.concat "" (retained committedLines) ++ provisionalText))).

End OutputFormatter.

(** ** The stream of samples *)

(** The samples in the buffer (none before the first frame). *)
Definition buffer (self : ServeClient) : list sample :=
  match frames_np self with
  | Some frames => frames
  | None => []
  end.

(** All the samples the transport delivered during a trace, in order. *)
Fixpoint ingested (trace : list event) : list sample :=
  match trace with
  | [] => []
  | Ingest frame_np :: rest => (frame_np ++ ingested rest)%list
  | Iterate _ _ :: rest => ingested rest
  end.

(** How many steps of the trace evict. *)
Fixpoint evictions (trace : list event) (self : ServeClient) : Z :=
  match trace with
  | [] => 0
  | e :: rest =>
      (if evicts self e then 1 else 0) + evictions rest (step self e)
  end.

(** ** [recv_audio] *)

(** What one call of [websocket.recv()] does: it returns a text message or
    a binary message, or it raises. *)
Inductive received : Type :=
| Str (message : string)
| Bytes (frame_data : list Byte.byte)
| ConnectionClosedOK
| OtherException.

(** [np.frombuffer(frame_data, np.float32)]: one sample for every 4 bytes,
    and [None] for the [ValueError] raised when the length is not a multiple
    of 4.  How 4 bytes make a [float32] is the parameter [float32]. *)
Fixpoint frombuffer
    (float32 : Byte.byte -> Byte.byte -> Byte.byte -> Byte.byte -> sample)
    (frame_data : list Byte.byte) : option (list sample) :=
  match frame_data with
  | [] => Some []
  | b0 :: b1 :: b2 :: b3 :: rest =>
      option_map (cons (float32 b0 b1 b2 b3)) (frombuffer float32 rest)
  | _ => None
  end.

(** How far the receive loop got on the messages it was given. *)
Inductive ending : Type :=
| Receiving        (* blocked in [websocket.recv()] *)
| Returned         (* [ConnectionClosedOK] caught: [break] *)
| Raised.          (* another exception left the loop *)

(** The [while True] loop of [recv_audio] on the successive results of
    [websocket.recv()].  Only [ConnectionClosedOK] is caught. *)
Fixpoint recv_loop
    (float32 : Byte.byte -> Byte.byte -> Byte.byte -> Byte.byte -> sample)
    (inbox : list received) (client : ServeClient) : ServeClient * ending :=
  match inbox with
  | [] => (client, Receiving)
  | Str _ :: rest => recv_loop float32 rest client
  | Bytes frame_data :: rest =>
      match frombuffer float32 frame_data with
      | Some frame_np => recv_loop float32 rest (add_frames frame_np client)
      | None => (client, Raised)
      end
  | ConnectionClosedOK :: _ => (client, Returned)
  | OtherException :: _ => (client, Raised)
  end.

(** [recv_audio(websocket)]: a fresh [ServeClient], then the loop. *)
Definition recv_audio
    (float32 : Byte.byte -> Byte.byte -> Byte.byte -> Byte.byte -> sample)
    (textwrap_wrap : Z -> string -> list string) (inbox : list received)
    : ServeClient * ending :=
  recv_loop float32 inbox (init textwrap_wrap).

(** The message is a text message. *)
Definition is_str (m : received) : bool :=
  match m with
  | Str _ => true
  | _ => false
  end.

(** ** Concrete inputs *)

(** A stand-in for [textwrap.TextWrapper.wrap] that returns the text as a
    single line.  It only serves to build concrete sessions; buffers,
    offsets, counters and committed lines do not depend on the wrapper. *)
Definition one_line (width : Z) (s : string) : list string := [s].

(** A frame of [seconds] seconds of zero samples. *)
Definition frame (seconds : Z) : list sample :=
  repeat 0%Q (Z.to_nat (seconds * RATE)).

(** A clock that reads [t] at each of its three readings. *)
Definition at_time (t : Q) : clock := mkClock t t t.

(** Fifty seconds of audio arriving in frames of 10 seconds; after each
    frame the recognition loop runs once and the engine finds no speech. *)
Definition fifty_quiet_seconds : list event :=
  [Ingest (frame 10); Iterate (Returns []) (at_time 10);
   Ingest (frame 10); Iterate (Returns []) (at_time 20);
   Ingest (frame 10); Iterate (Returns []) (at_time 30);
   Ingest (frame 10); Iterate (Returns []) (at_time 40);
   Ingest (frame 10); Iterate (Returns []) (at_time 50)].

Definition hello : Segment.t := Segment.mk "hello" 0 1.
Definition world : Segment.t := Segment.mk " world" 1 2.

(** * Properties *)

(** ** Lists, slices and strings *)

Lemma len_nonneg {A : Type} (l : list A) : 0 <= len l.
Proof. unfold len; lia. Qed.

Lemma len_app {A : Type} (l l' : list A) : len (l ++ l')%list = len l + len l'.
Proof. unfold len; rewrite length_app; lia. Qed.

Lemma len_skipn {A : Type} (n : nat) (l : list A) :
  len (skipn n l) = Z.max 0 (len l - Z.of_nat n).
Proof. unfold len; rewrite length_skipn; lia. Qed.

(** A non-negative start drops that many items from the head. *)
Lemma slice_from_nonneg {A : Type} (i : Z) (l : list A) :
  0 <= i -> slice_from i l = skipn (Z.to_nat i) l.
Proof.
  intros Hi. unfold slice_from.
  destruct (Z.ltb_spec i 0) as [H|_]; [lia|].
  destruct (Z.le_gt_cases i (len l)) as [H|H].
  - now rewrite Z.min_l.
  - rewrite Z.min_r by lia.
    rewrite !skipn_all2; trivial; unfold len in *; lia.
Qed.

Lemma len_slice_from_nonneg {A : Type} (i : Z) (l : list A) :
  0 <= i -> len (slice_from i l) = Z.max 0 (len l - i).
Proof.
  intros Hi. rewrite slice_from_nonneg, len_skipn by trivial. lia.
Qed.

(** A negative start keeps that many items at the tail. *)
Lemma slice_from_neg {A : Type} (k : Z) (l : list A) :
  0 < k -> slice_from (- k) l = skipn (List.length l - Z.to_nat k) l.
Proof.
  intros Hk. unfold slice_from.
  destruct (Z.ltb_spec (- k) 0) as [_|H]; [|lia].
  f_equal. unfold len. lia.
Qed.

Lemma len_slice_from_le {A : Type} (i : Z) (l : list A) :
  len (slice_from i l) <= len l.
Proof. unfold slice_from. rewrite len_skipn. pose proof (len_nonneg l). lia. Qed.


Lemma last_item_None {A : Type} (l : list A) : last_item l = None <-> l = [].
Proof.
  split; [|now intros ->].
  induction l as [|y l IH]; [trivial|].
  simpl. destruct l; [discriminate|]. intros H. now apply IH in H.
Qed.

(** A non-empty list is its [l[:-1]] followed by its [l[-1]]. *)
Lemma all_but_last_last_item {A : Type} (l : list A) (x : A) :
  last_item l = Some x -> l = (all_but_last l ++ [x])%list.
Proof.
  induction l as [|y l IH]; [discriminate|].
  destruct l as [|z l].
  - simpl. now intros [= ->].
  - intros H. change (last_item (z :: l) = Some x) in H.
    apply IH in H. unfold all_but_last in *.
    change (removelast (y :: z :: l)) with (y :: removelast (z :: l)).
    rewrite <- app_comm_cons. now f_equal.
Qed.

Lemma append_nil_r (s : string) : s ++ "" = s.
Proof. induction s as [|c s IH]; simpl; [reflexivity|now rewrite IH]. Qed.

Lemma append_assoc (s1 s2 s3 : string) : (s1 ++ s2) ++ s3 = s1 ++ (s2 ++ s3).
Proof. induction s1 as [|c s1 IH]; simpl; [reflexivity|now rewrite IH]. Qed.

Lemma concat_cons2 (sep x y : string) (l : list string) :
  String.concat sep (x :: y :: l) = x ++ sep ++ String.concat sep (y :: l).
Proof. reflexivity. Qed.

Lemma concat_empty_snoc (l : list string) (x : string) :
  String.concat "" (l ++ [x]) = String.concat "" l ++ x.
Proof.
  induction l as [|y l IH]; [reflexivity|].
  destruct l as [|z l]; [reflexivity|].
  rewrite <- !app_comm_cons, concat_cons2, app_comm_cons, IH, concat_cons2.
  simpl. now rewrite append_assoc.
Qed.

(** ** The output formatter (C9) *)

Lemma fill_loop_snoc (acc : string) (segs : list string) (seg : string) :
  fill_loop acc (segs ++ [seg]) =
  if String.eqb seg "" then "" else fill_loop acc segs ++ seg.
Proof.
  revert acc. induction segs as [|s segs IH]; intros acc; simpl.
  - now destruct (String.eqb seg "").
  - destruct (String.eqb s ""); apply IH.
Qed.

(** The forward loop of the code keeps what a backward walk up to the
    first sentinel keeps. *)
Lemma fill_loop_walk_back (segs : list string) :
  fill_loop "" segs = String.concat "" (OutputFormatter.walk_back (rev segs)).
Proof.
  induction segs as [|seg segs IH] using rev_ind; [reflexivity|].
  rewrite fill_loop_snoc, rev_app_distr. simpl.
  destruct (String.eqb seg ""); [reflexivity|].
  now rewrite concat_empty_snoc, IH.
Qed.

Lemma slice_last_two {A : Type} (l : list A) :
  slice_from (-2) l = OutputFormatter.last_entries 2 l.
Proof. now rewrite (slice_from_neg 2) by lia. Qed.

Lemma slice_pick_prev {A : Type} (l : list A) :
  slice_from (- Z.min (len l) pick_previous_segments) l =
  OutputFormatter.last_entries 2 l.
Proof.
  unfold pick_previous_segments, OutputFormatter.last_entries.
  destruct l as [|x l]; [reflexivity|].
  rewrite slice_from_neg by (unfold len; simpl List.length; lia).
  f_equal. unfold len. simpl List.length. lia.
Qed.

(** [fill_output] takes the last 2 committed lines, drops what precedes an
    empty-string sentinel among them, appends the provisional text, wraps
    with the session's wrapper, and joins the last two wrapped lines with
    one space. *)
Lemma fill_output_render self output :
  fill_output self output =
  OutputFormatter.render (wrapper self) (text self) output.
Proof.
  unfold fill_output, OutputFormatter.render, OutputFormatter.retained.
  now rewrite slice_pick_prev, slice_last_two, fill_loop_walk_back.
Qed.

(** ** The stabiliser: [update_segments] *)

Lemma set_text_same (self : ServeClient) : set_text (text self) self = self.
Proof. now destruct self. Qed.

(** The loop over the complete segments appends their texts and their
    lines, in order, and leaves in [offset] the clamped end of the last. *)
Lemma complete_loop_eq duration segs self transcript offset :
  complete_loop duration segs (self, transcript, offset) =
  (set_text (text self ++ map Segment.text segs)%list self,
   (transcript ++ map (line_of (timestamp_offset self) duration) segs)%list,
   match last_item segs with
   | Some s => Some (Qmin duration (Segment.end_ s))
   | None => offset
   end).
Proof.
  revert self transcript offset.
  induction segs as [|s segs IH]; intros self transcript offset.
  - simpl. now rewrite !app_nil_r, set_text_same.
  - cbn [complete_loop]. rewrite IH.
    cbn [text timestamp_offset set_text map].
    rewrite <- !app_assoc. cbn [app]. unfold set_text at 1. cbn.
    f_equal. destruct segs as [|s' segs]; [reflexivity|].
    change (last_item (s :: s' :: segs)) with (last_item (s' :: segs)).
    destruct (last_item (s' :: segs)) eqn:E; [reflexivity|].
    now apply last_item_None in E.
Qed.

(** With at most one segment the loop is not entered, which is what the
    loop does on an empty [segments[:-1]]. *)
Lemma complete_phase_eq duration segments (self : ServeClient) :
  (if 1 <? len segments
   then complete_loop duration (all_but_last segments) (self, [], None)
   else (self, [], None)) =
  complete_loop duration (all_but_last segments) (self, [], None).
Proof.
  destruct (Z.ltb_spec 1 (len segments)) as [H|H]; [reflexivity|].
  destruct segments as [|s [|s' segments]]; try reflexivity.
  unfold len in H. simpl List.length in H. lia.
Qed.

#[local] Arguments fill_output : simpl never.
#[local] Arguments strip : simpl never.
#[local] Arguments lower : simpl never.
#[local] Arguments String.eqb : simpl never.
#[local] Arguments Z.ltb : simpl never.
#[local] Arguments Z.add : simpl never.
#[local] Arguments clip_audio : simpl never.
#[local] Arguments input_bytes : simpl never.
#[local] Arguments Qltb : simpl never.

(** [update_segments] on a result whose last segment is [tail], in closed
    form: the complete segments are committed, then the tail is either
    promoted (the repeat count exceeds 5) or remembered. *)
Lemma update_segments_eq segments duration self tail :
  last_item segments = Some tail ->
  let complete := all_but_last segments in
  let cursor := timestamp_offset self in
  let lines := (text self ++ map Segment.text complete)%list in
  let transcript := map (line_of cursor duration) complete in
  let cur := Segment.text tail in
  let count :=
    if String.eqb (strip cur) (strip (prev_out self)) && negb (String.eqb cur "")
    then same_output_threshold self + 1 else 0 in
  update_segments segments duration self =
  if 5 <? count
  then
    let fresh :=
      match last_item lines with
      | None => true
      | Some l => negb (String.eqb (lower (strip l)) (lower (strip cur)))
      end in
    let self' :=
      mkServeClient (cursor + duration)%Q (frames_np self) (frames_offset self)
        (if fresh then (lines ++ [cur])%list else lines) "" (prev_out self)
        (t_start self) 0 (wrapper self) in
    (self',
     Some (fill_output self' "",
           if fresh
           then (transcript ++ [Line.mk cursor (cursor + duration)%Q cur])%list
           else transcript))
  else
    let self' :=
      mkServeClient
        match last_item complete with
        | Some s => (cursor + Qmin duration (Segment.end_ s))%Q
        | None => cursor
        end
        (frames_np self) (frames_offset self) lines cur cur
        (t_start self) count (wrapper self) in
    (self', Some (fill_output self' cur, transcript)).
Proof.
  intros Htail. cbv zeta. unfold update_segments.
  rewrite complete_phase_eq, complete_loop_eq, Htail.
  cbn -[Z.ltb Z.add].
  destruct (String.eqb (strip (Segment.text tail)) (strip (prev_out self))
            && negb (String.eqb (Segment.text tail) "")).
  - cbn -[Z.ltb Z.add].
    destruct (5 <? same_output_threshold self + 1).
    + unfold not_last_line. cbn.
      destruct (last_item (text self ++ map Segment.text (all_but_last segments)))
        as [l|]; [|reflexivity].
      destruct (String.eqb (lower (strip l)) (lower (strip (Segment.text tail))));
        reflexivity.
    + destruct (last_item (all_but_last segments)); reflexivity.
  - cbn. destruct (last_item (all_but_last segments)); reflexivity.
Qed.

(** C10.  When the repeat count exceeds 5 on this call but the last
    committed line (after the complete segments of this result, if any,
    have been committed) equals the candidate up to surrounding whitespace
    and case, the promotion appends no line and emits no transcript line;
    the cursor still advances by the whole window, the provisional text is
    cleared and the repeat count is 0.  For a one-segment result nothing at
    all is committed or emitted. *)
Theorem promotion_of_committed_text segments duration self tail l :
  last_item segments = Some tail ->
  strip (Segment.text tail) = strip (prev_out self) ->
  Segment.text tail <> "" ->
  5 <= same_output_threshold self ->
  last_item (text self ++ map Segment.text (all_but_last segments)) = Some l ->
  lower (strip l) = lower (strip (Segment.text tail)) ->
  let r := update_segments segments duration self in
  let complete := all_but_last segments in
  (text (fst r) = (text self ++ map Segment.text complete)%list /\
   option_map snd (snd r) =
     Some (map (line_of (timestamp_offset self) duration) complete) /\
   timestamp_offset (fst r) = (timestamp_offset self + duration)%Q /\
   current_out (fst r) = "" /\
   same_output_threshold (fst r) = 0) /\
  (segments = [tail] ->
   text (fst r) = text self /\ option_map snd (snd r) = Some []).
Proof.
  intros Htail Hsame Hne Hcount Hlast Hdup r complete.
  assert (Hr : (text (fst r) = (text self ++ map Segment.text complete)%list /\
          option_map snd (snd r) =
            Some (map (line_of (timestamp_offset self) duration) complete) /\
          timestamp_offset (fst r) = (timestamp_offset self + duration)%Q /\
          current_out (fst r) = "" /\
          same_output_threshold (fst r) = 0)).
  { subst r complete. rewrite (update_segments_eq _ _ _ _ Htail). cbv zeta.
    rewrite Hsame, String.eqb_refl.
    apply String.eqb_neq in Hne. rewrite Hne. cbn [negb andb].
    destruct (Z.ltb_spec 5 (same_output_threshold self + 1)) as [_|H]; [|lia].
    rewrite Hlast. cbv beta iota. rewrite Hdup, Hsame, String.eqb_refl.
    cbn. repeat split. }
  split; [exact Hr|].
  intros ->. destruct Hr as (Ht & Hl & _). subst complete.
  cbn [all_but_last removelast map] in Ht, Hl.
  now rewrite app_nil_r in Ht.
Qed.

Lemma promotion_of_committed_text_witness :
  let self := mkServeClient 0 None 0 ["Hello "] "" "hello" None 5 (one_line 50) in
  let r := update_segments [hello] 2 self in
  text (fst r) = ["Hello "] /\ option_map snd (snd r) = Some [] /\
  timestamp_offset (fst r) = (0 + 2)%Q /\ current_out (fst r) = "" /\
  same_output_threshold (fst r) = 0.
Proof.
  intros self r.
  destruct (promotion_of_committed_text [hello] 2 self hello "Hello ")
    as [(_ & _ & Hts & Hcur & Hcount) Hone];
    [reflexivity | reflexivity | discriminate | cbn; lia
    | reflexivity | reflexivity | ].
  destruct (Hone eq_refl) as [Ht Hl].
  repeat split; assumption.
Defined.

(** C5.  The engine returns "hello" (0 to 1.0) and " world" (1.0 to 2.0)
    for a 2-second window with the cursor at 0, and no stall promotion is
    due: exactly the line (0, 1.0, "hello") is committed and emitted, the
    cursor advances to 1.0, the clamped end of the last complete segment,
    and the provisional text becomes " world". *)
Theorem hello_world_scenario self :
  timestamp_offset self = 0%Q ->
  same_output_threshold self < 5 \/ strip (prev_out self) <> "world" ->
  let r := update_segments [hello; world] 2 self in
  text (fst r) = (text self ++ ["hello"])%list /\
  option_map snd (snd r) = Some [Line.mk 0 1 "hello"] /\
  timestamp_offset (fst r) = 1%Q /\
  current_out (fst r) = " world".
Proof.
  intros Hts Hpending r. subst r.
  rewrite (update_segments_eq [hello; world] 2 self world eq_refl). cbv zeta.
  assert (Hcount :
    (5 <? (if String.eqb (strip (Segment.text world)) (strip (prev_out self))
              && negb (String.eqb (Segment.text world) "")
           then same_output_threshold self + 1 else 0)) = false).
  { destruct (String.eqb_spec (strip (Segment.text world)) (strip (prev_out self)))
      as [E|_]; cbn [andb]; [|reflexivity].
    change (String.eqb (Segment.text world) "") with false. cbn [negb].
    apply Z.ltb_ge. destruct Hpending as [H|H]; [lia|].
    exfalso. apply H. now rewrite <- E. }
  rewrite Hcount, Hts. cbn. repeat split.
Qed.

Lemma hello_world_scenario_witness :
  let r := update_segments [hello; world] 2 (init one_line) in
  text (fst r) = ["hello"] /\
  option_map snd (snd r) = Some [Line.mk 0 1 "hello"] /\
  timestamp_offset (fst r) = 1%Q /\
  current_out (fst r) = " world".
Proof.
  apply (hello_world_scenario (init one_line)); [reflexivity | left; cbn; lia].
Defined.

(** *** Stall promotion (C4) *)

Lemma feed_app cycles1 cycles2 self :
  feed (cycles1 ++ cycles2) self =
  let '(self1, lines1) := feed cycles1 self in
  let '(self2, lines2) := feed cycles2 self1 in
  (self2, (lines1 ++ lines2)%list).
Proof.
  revert self. induction cycles1 as [|[segments duration] cycles1 IH]; intros self.
  - simpl. now destruct (feed cycles2 self).
  - cbn [feed app].
    destruct (update_segments segments duration self) as [self1 r].
    rewrite IH.
    destruct (feed cycles1 self1) as [self2 lines].
    destruct (feed cycles2 self2) as [self3 lines'].
    now rewrite app_assoc.
Qed.

(** A one-segment result that does not bring the repeat count above 5
    commits nothing, leaves the cursor where it is and remembers the
    candidate. *)
Lemma update_segments_remember s duration self count :
  (if String.eqb (strip (Segment.text s)) (strip (prev_out self))
      && negb (String.eqb (Segment.text s) "")
   then same_output_threshold self + 1 else 0) = count ->
  count <= 5 ->
  let r := update_segments [s] duration self in
  snd (feed [([s], duration)] self) = [] /\
  fst (feed [([s], duration)] self) = fst r /\
  text (fst r) = text self /\
  timestamp_offset (fst r) = timestamp_offset self /\
  same_output_threshold (fst r) = count /\
  prev_out (fst r) = Segment.text s.
Proof.
  intros Hcount Hle r. subst r. cbn [feed].
  rewrite (update_segments_eq [s] duration self s eq_refl). cbv zeta.
  rewrite Hcount.
  destruct (Z.ltb_spec 5 count) as [H|_]; [lia|].
  cbn. rewrite app_nil_r. repeat split.
Qed.

(** While the count stays at most 5, cycles that return the remembered
    candidate only count up. *)
Lemma feed_repeats c cycles : forall self,
  Forall (same_candidate c) cycles ->
  strip (prev_out self) = strip c ->
  same_output_threshold self + Z.of_nat (List.length cycles) <= 5 ->
  let r := feed (map single cycles) self in
  snd r = [] /\
  text (fst r) = text self /\
  timestamp_offset (fst r) = timestamp_offset self /\
  same_output_threshold (fst r) =
    same_output_threshold self + Z.of_nat (List.length cycles) /\
  strip (prev_out (fst r)) = strip c.
Proof.
  induction cycles as [|[s d] cycles IH]; intros self Hall Hprev Hle.
  - cbn. repeat split; trivial; lia.
  - inversion Hall as [|? ? [Hs Hne] Hall']; subst. cbn [fst] in Hs, Hne.
    cbn [List.length] in Hle.
    destruct (update_segments_remember s d self (same_output_threshold self + 1))
      as (Hl & Hf & Ht & Hts & Hc & Hp); [|lia|].
    { rewrite Hs, Hprev, String.eqb_refl.
      apply String.eqb_neq in Hne. now rewrite Hne. }
    cbn [map single fst snd].
    change (single (s, d) :: map single cycles)
      with ([([s], d)] ++ map single cycles)%list.
    rewrite feed_app.
    destruct (feed [([s], d)] self) as [self1 lines1] eqn:E1.
    cbn [fst snd] in Hl, Hf. subst lines1 self1.
    set (self1 := fst (update_segments [s] d self)) in *.
    specialize (IH self1 Hall').
    destruct (feed (map single cycles) self1) as [self2 lines2].
    cbn [fst snd] in IH |- *.
    destruct IH as (-> & Ht2 & Hts2 & Hc2 & Hp2).
    + now rewrite Hp.
    + lia.
    + cbn [List.length]. repeat split; try congruence. lia.
Qed.

(** C4, as the code has it.  A candidate that differs from the remembered
    one is first remembered (count 0); the next five cycles that return it
    again, compared after trimming only, bring the count to 5, and nothing
    is committed by these six cycles.  The seventh consecutive cycle brings
    the count to 6: the candidate is committed once, unless the last
    committed line already equals it up to whitespace and case, with a line
    spanning the cursor and the cursor plus the window duration; the cursor
    advances by the window duration, the provisional text is cleared and
    the count is reset to 0. *)
Theorem stall_promotion_on_seventh_cycle c self first repeats last :
  strip (prev_out self) <> strip c ->
  same_candidate c first ->
  Forall (same_candidate c) repeats ->
  List.length repeats = 5%nat ->
  same_candidate c last ->
  match last_item (text self) with
  | None => True
  | Some l => lower (strip l) <> lower (strip (Segment.text (fst last)))
  end ->
  let six := feed (map single (first :: repeats)) self in
  let seven := feed (map single ((first :: repeats) ++ [last])) self in
  let cursor := timestamp_offset self in
  (snd six = [] /\
   text (fst six) = text self /\
   timestamp_offset (fst six) = cursor /\
   same_output_threshold (fst six) = 5) /\
  (snd seven =
     [Line.mk cursor (cursor + snd last)%Q (Segment.text (fst last))] /\
   text (fst seven) = (text self ++ [Segment.text (fst last)])%list /\
   timestamp_offset (fst seven) = (cursor + snd last)%Q /\
   same_output_threshold (fst seven) = 0 /\
   current_out (fst seven) = "").
Proof.
  intros Hnew [Hf Hfne] Hrep Hlen [Hl Hlne] Hfresh six seven cursor.
  destruct first as [s1 d1], last as [s7 d7]. cbn [fst snd] in *.
  (* first cycle: the candidate is new *)
  destruct (update_segments_remember s1 d1 self 0)
    as (Hl1 & Hf1 & Ht1 & Hts1 & Hc1 & Hp1); [|lia|].
  { destruct (String.eqb_spec (strip (Segment.text s1)) (strip (prev_out self)))
      as [E|_]; [|reflexivity].
    exfalso. apply Hnew. now rewrite <- E. }
  set (self1 := fst (update_segments [s1] d1 self)) in *.
  (* five repetitions *)
  destruct (feed_repeats c repeats self1 Hrep) as (Hl6 & Ht6 & Hts6 & Hc6 & Hp6).
  { now rewrite Hp1. }
  { rewrite Hc1, Hlen. lia. }
  rewrite Hc1, Hlen in Hc6. cbn in Hc6.
  assert (Hsix : snd six = [] /\ text (fst six) = text self /\
                 timestamp_offset (fst six) = cursor /\
                 same_output_threshold (fst six) = 5 /\
                 strip (prev_out (fst six)) = strip c).
  { subst six. cbn [map].
    change (single (s1, d1) :: map single repeats)
      with ([([s1], d1)] ++ map single repeats)%list.
    rewrite feed_app.
    destruct (feed [([s1], d1)] self) as [self1' lines1].
    cbn [fst snd] in Hl1, Hf1. subst lines1 self1'. fold self1.
    revert Hl6 Ht6 Hts6 Hc6 Hp6.
    destruct (feed (map single repeats) self1) as [self6 lines6].
    cbn [fst snd]. intros -> Ht6 Hts6 Hc6 Hp6.
    subst cursor. repeat split; try congruence. lia. }
  split; [tauto|].
  (* seventh cycle: promotion *)
  destruct Hsix as (Hs6 & Hx6 & Hy6 & Hz6 & Hw6).
  subst seven. rewrite map_app, feed_app. fold six.
  destruct six as [self6 lines6]. cbn [fst snd] in *. subst lines6.
  cbn [map single fst snd feed].
  rewrite (update_segments_eq [s7] d7 self6 s7 eq_refl). cbv zeta.
  rewrite Hl, Hw6, String.eqb_refl.
  apply String.eqb_neq in Hlne. rewrite Hlne. cbn [negb andb].
  rewrite Hz6. change (5 <? 5 + 1) with true.
  cbn [all_but_last removelast map]. rewrite app_nil_r, Hx6, Hy6.
  destruct (last_item (text self)) as [l|].
  - apply String.eqb_neq in Hfresh. rewrite Hl in Hfresh.
    rewrite Hfresh. cbn. repeat split.
  - cbn. repeat split.
Qed.

Lemma stall_promotion_on_seventh_cycle_witness :
  let six := feed (repeat ([hello], 2%Q) 6) (init one_line) in
  let seven := feed (repeat ([hello], 2%Q) 7) (init one_line) in
  (snd six = [] /\ text (fst six) = [] /\
   timestamp_offset (fst six) = 0%Q /\ same_output_threshold (fst six) = 5) /\
  (snd seven = [Line.mk 0 (0 + 2)%Q "hello"] /\
   text (fst seven) = ["hello"] /\
   timestamp_offset (fst seven) = (0 + 2)%Q /\
   same_output_threshold (fst seven) = 0 /\
   current_out (fst seven) = "").
Proof.
  apply (stall_promotion_on_seventh_cycle "hello" (init one_line)
           (hello, 2%Q) (repeat (hello, 2%Q) 5) (hello, 2%Q)).
  - vm_compute. discriminate.
  - split; [reflexivity | discriminate].
  - repeat constructor; discriminate.
  - reflexivity.
  - split; [reflexivity | discriminate].
  - exact I.
Defined.

(** C4 as stated fails.  From a fresh session, six consecutive cycles
    returning "hello" leave the repeat count at 5, which does not exceed 5,
    and commit nothing.  And candidates that are equal only after case
    normalisation ("Hello", "hello", ...) never raise the count: seven such
    cycles commit nothing. *)
Lemma six_cycles_do_not_promote :
  (let r := feed (repeat ([hello], 2%Q) 6) (init one_line) in
   text (fst r) = [] /\ snd r = [] /\ same_output_threshold (fst r) = 5) /\
  (let Hello := Segment.mk "Hello" 0 1 in
   let r := feed [([Hello], 2%Q); ([hello], 2%Q); ([Hello], 2%Q);
                  ([hello], 2%Q); ([Hello], 2%Q); ([hello], 2%Q);
                  ([Hello], 2%Q)] (init one_line) in
   text (fst r) = [] /\ snd r = [] /\ same_output_threshold (fst r) = 0).
Proof. vm_compute. repeat split. Qed.

(** ** The recognition loop *)

(** Clipping moves the cursor and nothing else. *)
Lemma clip_audio_fields frames self :
  let self' := clip_audio frames self in
  frames_np self' = frames_np self /\
  frames_offset self' = frames_offset self /\
  text self' = text self /\
  current_out self' = current_out self /\
  prev_out self' = prev_out self /\
  t_start self' = t_start self /\
  same_output_threshold self' = same_output_threshold self.
Proof.
  unfold clip_audio.
  destruct (25 * RATE <? len _); cbn; repeat split.
Qed.

(** Ingestion touches the buffer and its origin only. *)
Lemma add_frames_fields frame_np self :
  let self' := add_frames frame_np self in
  timestamp_offset self' = timestamp_offset self /\
  text self' = text self /\
  current_out self' = current_out self /\
  prev_out self' = prev_out self /\
  t_start self' = t_start self /\
  same_output_threshold self' = same_output_threshold self.
Proof.
  unfold add_frames, evict_history.
  destruct (frames_np self) as [frames|] eqn:E.
  - destruct (45 * RATE <? len frames); cbn; [|rewrite E; cbn]; repeat split.
  - rewrite E. cbn. repeat split.
Qed.



(** C6, as the code has it.  Repeat-stall detection lives in
    [update_segments], which the loop calls only when the engine returned at
    least one segment.  A cycle with an empty result leaves the repeat
    count, the remembered candidate and the provisional text as they
    were. *)
Theorem empty_result_skips_stall_detection clk self :
  let self' := step self (Iterate (Returns []) clk) in
  same_output_threshold self' = same_output_threshold self /\
  prev_out self' = prev_out self /\
  current_out self' = current_out self.
Proof.
  unfold step, speech_to_text_iter.
  destruct (frames_np self) as [frames|]; [|now cbn].
  destruct (clip_audio_fields frames self) as (_ & _ & _ & Hc & Hp & _ & Hn).
  destruct (Qltb _ 1); [cbn; now rewrite Hc, Hp, Hn|].
  cbn [len List.length Z.of_nat Z.eqb negb].
  unfold empty_result.
  destruct (last_item (text (set_t_start _ (clip_audio frames self)))) as [l|];
    [destruct (negb (String.eqb l "") && Qltb _ _)|];
    cbn; now rewrite Hc, Hp, Hn.
Qed.

(** C6 as stated fails: after "hello" has been returned twice the repeat
    count is 1 and the remembered candidate is "hello"; a cycle that reaches
    the engine and gets no segment changes neither. *)
Lemma empty_result_keeps_repeat_count :
  let before :=
    run [Ingest (frame 2); Iterate (Returns [hello]) (at_time 0);
         Iterate (Returns [hello]) (at_time 1)] (init one_line) in
  let cycle := speech_to_text_iter (Returns []) (at_time 2) before in
  (prev_out before = "hello" /\ same_output_threshold before = 1) /\
  snd cycle = Sent "" [] /\
  prev_out (fst cycle) = "hello" /\ same_output_threshold (fst cycle) = 1.
Proof. vm_compute. repeat split. Qed.

(** *** Pause sentinel (C7) *)






(** ** The audio buffer *)

Lemma len_frame seconds : 0 <= seconds -> len (frame seconds) = seconds * RATE.
Proof.
  intros H. unfold frame, len. rewrite repeat_length. unfold RATE. lia.
Qed.

(** The buffer after [add_frames]: the samples present before, without the
    first [30 * RATE] of them if there were more than [45 * RATE], followed
    by the new frame. *)
Lemma buffered_add_frames frame_np self :
  buffered (add_frames frame_np self) =
  (if 45 * RATE <? buffered self
   then buffered self - 30 * RATE else buffered self) + len frame_np.
Proof.
  unfold add_frames, evict_history, buffered.
  destruct (frames_np self) as [frames|] eqn:E.
  - destruct (Z.ltb_spec (45 * RATE) (len frames)) as [H|H].
    + cbn. rewrite len_app, len_slice_from_nonneg by (unfold RATE; lia).
      unfold RATE, len in *. lia.
    + rewrite E. cbn. now rewrite len_app.
  - rewrite E. change (45 * RATE <? 0) with false.
    cbn [frames_np set_frames_np]. lia.
Qed.

(** A recognition cycle leaves the buffer and its origin alone. *)
Lemma iter_buffer r clk self :
  let self' := step self (Iterate r clk) in
  frames_np self' = frames_np self /\ frames_offset self' = frames_offset self.
Proof.
  unfold step, speech_to_text_iter.
  destruct (frames_np self) as [frames|] eqn:Hf; [|cbn; now rewrite Hf].
  destruct (clip_audio_fields frames self) as (Hn & Ho & _).
  rewrite Hf in Hn.
  destruct (Qltb _ 1); [now cbn|].
  destruct r as [|[|seg result]]; [now cbn| |].
  - cbn [len List.length Z.of_nat Z.eqb negb].
    unfold empty_result.
    destruct (last_item (text (set_t_start _ (clip_audio frames self)))) as [l|];
      [destruct (negb (String.eqb l "") && Qltb _ _)|]; now cbn.
  - replace (negb (len (seg :: result) =? 0)) with true
      by (unfold len; cbn [List.length];
          destruct (Z.eqb_spec (Z.of_nat (S (List.length result))) 0);
          [lia|reflexivity]).
    destruct (last_item (seg :: result)) as [tail|] eqn:E;
      [|now apply last_item_None in E].
    rewrite (update_segments_eq _ _ _ tail E). cbv zeta.
    destruct (5 <? _); now cbn.
Qed.

(** C2, as the code has it.  When [add_frames] finds more than 45 seconds
    of samples in the buffer, the eviction drops exactly the oldest 30
    seconds ([30 * RATE] samples) from the head and keeps all the samples
    after them, more than 15 seconds; the new frame is appended to
    these. *)
Theorem eviction_drops_oldest_thirty_seconds frame_np self frames :
  frames_np self = Some frames ->
  45 * RATE < len frames ->
  let dropped := firstn (Z.to_nat (30 * RATE)) frames in
  let kept := skipn (Z.to_nat (30 * RATE)) frames in
  frames = (dropped ++ kept)%list /\
  len dropped = 30 * RATE /\
  len kept = len frames - 30 * RATE /\
  15 * RATE < len kept /\
  frames_np (evict_history self) = Some kept /\
  frames_np (add_frames frame_np self) = Some (kept ++ frame_np)%list.
Proof.
  intros Hf Hlen dropped kept.
  assert (Hevict : frames_np (evict_history self) = Some kept).
  { unfold evict_history. rewrite Hf.
    destruct (Z.ltb_spec (45 * RATE) (len frames)) as [_|H]; [|lia].
    cbn. now rewrite slice_from_nonneg by (unfold RATE; lia). }
  assert (Hkept : len kept = len frames - 30 * RATE).
  { subst kept. rewrite len_skipn. unfold RATE in *. lia. }
  repeat split; trivial.
  - subst dropped kept. now rewrite firstn_skipn.
  - subst dropped. unfold len in *. rewrite length_firstn.
    unfold RATE in *. lia.
  - unfold RATE in *. lia.
  - unfold add_frames. now rewrite Hevict.
Qed.

Lemma eviction_drops_oldest_thirty_seconds_witness :
  let self := set_frames_np (Some (frame 50)) (init one_line) in
  len (skipn (Z.to_nat (30 * RATE)) (frame 50)) = len (frame 50) - 30 * RATE /\
  frames_np (add_frames (frame 10) self) =
    Some (skipn (Z.to_nat (30 * RATE)) (frame 50) ++ frame 10)%list.
Proof.
  intros self.
  destruct (eviction_drops_oldest_thirty_seconds (frame 10) self (frame 50))
    as (_ & _ & Hkept & _ & _ & Hadd);
    [reflexivity | now vm_compute | ].
  split; assumption.
Defined.

(** C2 as stated fails.  With 50 seconds buffered, the eviction keeps 20
    seconds, not 30, and it advances the origin by 45 seconds although it
    evicted 30 seconds of samples. *)
Lemma eviction_keeps_twenty_seconds :
  let before := set_frames_np (Some (frame 50)) (init one_line) in
  let after := evict_history before in
  buffered before = 50 * RATE /\
  buffered after = 20 * RATE /\
  buffered before - buffered after = 30 * RATE /\
  frames_offset before = 0%Q /\
  frames_offset after = 45%Q.
Proof. vm_compute. repeat split. Qed.

(** *** Buffer growth (C8) *)

(** With frames of at most [n <= 30 * RATE] samples the buffer never holds
    more than [45 * RATE + n] samples. *)
Lemma buffered_bound n trace : forall self,
  0 <= n <= 30 * RATE ->
  Forall (frame_at_most n) trace ->
  buffered self <= 45 * RATE + n ->
  buffered (run trace self) <= 45 * RATE + n.
Proof.
  induction trace as [|e trace IH]; intros self Hn Hall Hself; [exact Hself|].
  inversion Hall as [|? ? He Hall']; subst.
  change (run (e :: trace) self) with (run trace (step self e)).
  apply IH; trivial.
  destruct e as [frame_np|r clk].
  - cbn [step frame_at_most] in *. rewrite buffered_add_frames.
    destruct (Z.ltb_spec (45 * RATE) (buffered self)); unfold RATE in *; lia.
  - unfold buffered. now destruct (iter_buffer r clk self) as [-> _].
Qed.

(** C8, as the code has it.  [add_frames] tests the high-water mark before
    it appends, so the frame just appended is not counted: under continuous
    ingestion of frames no longer than 30 seconds, the buffer immediately
    after an append holds at most 45 seconds plus that frame. *)
Theorem buffer_bound_after_append n textwrap_wrap trace frame_np :
  0 <= n <= 30 * RATE ->
  Forall (frame_at_most n) trace ->
  len frame_np <= n ->
  buffered (add_frames frame_np (run trace (init textwrap_wrap)))
    <= 45 * RATE + len frame_np.
Proof.
  intros Hn Hall Hframe.
  pose proof (buffered_bound n trace (init textwrap_wrap) Hn Hall) as Hb.
  rewrite buffered_add_frames.
  destruct (Z.ltb_spec (45 * RATE) (buffered (run trace (init textwrap_wrap))));
    [|lia].
  assert (buffered (init textwrap_wrap) <= 45 * RATE + n)
    by (cbn; unfold RATE in *; lia).
  unfold RATE in *. lia.
Qed.

Lemma buffer_bound_after_append_witness :
  buffered
    (add_frames (frame 10)
       (run [Ingest (frame 10); Ingest (frame 10); Ingest (frame 10);
             Ingest (frame 10); Ingest (frame 10)] (init one_line)))
    <= 45 * RATE + len (frame 10).
Proof.
  apply (buffer_bound_after_append (10 * RATE)).
  - unfold RATE. lia.
  - repeat constructor; now vm_compute.
  - now vm_compute.
Defined.

(** C8 as stated fails: five frames of 10 seconds each are appended without
    any eviction, the buffer being at most 40 seconds long before each
    append; immediately after the fifth append it holds 50 seconds. *)
Lemma buffer_exceeds_45_seconds_after_append :
  let before :=
    run [Ingest (frame 10); Ingest (frame 10); Ingest (frame 10);
         Ingest (frame 10)] (init one_line) in
  let after := add_frames (frame 10) before in
  buffered before = 40 * RATE /\ buffered after = 50 * RATE /\
  45 * RATE < buffered after.
Proof. vm_compute. repeat split. Qed.

(** *** Cursor and buffer origin (C1) *)

Lemma Qltb_false x y : Qltb x y = false -> (y <= x)%Q.
Proof.
  unfold Qltb. intros H. apply Qle_bool_iff.
  now destruct (Qle_bool y x).
Qed.

Lemma Qltb_true x y : Qltb x y = true -> (x < y)%Q.
Proof.
  unfold Qltb. intros H. apply Qnot_le_lt. intros Hle.
  apply Qle_bool_iff in Hle. now rewrite Hle in H.
Qed.

Lemma last_item_In {A : Type} (l : list A) (x : A) : last_item l = Some x -> In x l.
Proof.
  intros H. rewrite (all_but_last_last_item l x H).
  apply in_or_app. right. now left.
Qed.

Lemma all_but_last_In {A : Type} (l : list A) (x : A) :
  In x (all_but_last l) -> In x l.
Proof.
  destruct (last_item l) as [y|] eqn:E.
  - intros H. rewrite (all_but_last_last_item l y E).
    apply in_or_app. now left.
  - apply last_item_None in E. now subst.
Qed.

(** Clipping never moves the cursor behind the origin: it fires on a buffer
    of more than 25 seconds and sets the cursor 5 seconds before its end. *)
Lemma clip_audio_cursor frames self :
  (frames_offset self <= timestamp_offset self)%Q ->
  (frames_offset (clip_audio frames self)
   <= timestamp_offset (clip_audio frames self))%Q.
Proof.
  intros Hinv. unfold clip_audio.
  destruct (Z.ltb_spec (25 * RATE)
              (len (slice_from
                      (int ((timestamp_offset self - frames_offset self)
                            * inject_Z RATE)%Q) frames))) as [H|_];
    [|exact Hinv].
  cbn [frames_offset timestamp_offset set_timestamp_offset].
  pose proof (len_slice_from_le
                (int ((timestamp_offset self - frames_offset self)
                      * inject_Z RATE)%Q) frames) as Hle.
  assert (Hlen : 25 * RATE < len frames) by lia.
  rewrite Zlt_Qlt in Hlen.
  change (inject_Z (25 * RATE)) with 400000%Q in Hlen.
  change (inject_Z RATE) with 16000%Q.
  set (n := inject_Z (len frames)) in *.
  unfold Qdiv. change (/ 16000)%Q with (1 # 16000)%Q.
  lra.
Qed.

(** [update_segments] never moves the cursor backwards when the engine
    reports non-negative end offsets. *)
Lemma update_segments_cursor segments duration self tail :
  last_item segments = Some tail ->
  (0 <= duration)%Q ->
  Forall (fun s => (0 <= Segment.end_ s)%Q) segments ->
  let self' := fst (update_segments segments duration self) in
  frames_offset self' = frames_offset self /\
  (timestamp_offset self <= timestamp_offset self')%Q.
Proof.
  intros Htail Hd Hends.
  rewrite (update_segments_eq _ duration self tail Htail). cbv zeta.
  destruct (5 <? _); cbn [fst frames_offset timestamp_offset];
    (split; [reflexivity|]).
  - lra.
  - destruct (last_item (all_but_last segments)) as [s|] eqn:E; [|lra].
    assert (Hs : (0 <= Segment.end_ s)%Q).
    { rewrite Forall_forall in Hends. apply Hends.
      apply all_but_last_In. now apply last_item_In. }
    pose proof (Q.min_glb duration (Segment.end_ s) 0 Hd Hs). lra.
Qed.

(** A step that does not evict keeps the cursor at or after the origin. *)
Lemma step_keeps_cursor self e :
  ends_nonneg e ->
  evicts self e = false ->
  (frames_offset self <= timestamp_offset self)%Q ->
  (frames_offset (step self e) <= timestamp_offset (step self e))%Q.
Proof.
  intros Hends Hev Hinv. destruct e as [frame_np|r clk].
  - cbn [step]. destruct (add_frames_fields frame_np self) as (-> & _).
    unfold add_frames, evict_history. cbn [evicts] in Hev.
    destruct (frames_np self) as [frames|] eqn:E.
    + rewrite Hev, E. exact Hinv.
    + rewrite E. exact Hinv.
  - unfold step, speech_to_text_iter.
    destruct (frames_np self) as [frames|]; [|exact Hinv].
    pose proof (clip_audio_cursor frames self Hinv) as Hclip.
    set (self1 := clip_audio frames self) in *.
    destruct (Qltb _ 1) eqn:Hshort; [exact Hclip|].
    apply Qltb_false in Hshort.
    destruct r as [|[|seg result]]; [exact Hclip| |].
    + cbn [len List.length Z.of_nat Z.eqb negb].
      unfold empty_result.
      destruct (last_item (text (set_t_start _ self1))) as [l|];
        [destruct (negb (String.eqb l "") && Qltb _ _)|]; exact Hclip.
    + replace (negb (len (seg :: result) =? 0)) with true
        by (unfold len; cbn [List.length];
            destruct (Z.eqb_spec (Z.of_nat (S (List.length result))) 0);
            [lia|reflexivity]).
      destruct (last_item (seg :: result)) as [tail|] eqn:E;
        [|now apply last_item_None in E].
      set (duration := (inject_Z (len (input_bytes frames self1))
                        / inject_Z RATE)%Q) in *.
      destruct (update_segments_cursor (seg :: result) duration
                  (set_t_start None self1) tail E) as [Ho Hts];
        [lra | exact Hends |].
      cbn [frames_offset timestamp_offset set_t_start] in Ho, Hts.
      destruct (update_segments (seg :: result) duration (set_t_start None self1))
        as [self2 [[output lines]|]]; cbn [fst] in *; rewrite Ho; lra.
Qed.

(** C1, as the code has it.  Recognition cycles, for an engine that reports
    non-negative end offsets, and appends that do not evict keep the cursor
    at or after the buffer origin; so the cursor is at or after the origin
    in every state a session reaches without an eviction.  (The eviction
    itself does not look at the cursor.) *)
Theorem cursor_not_behind_origin_without_eviction trace : forall self,
  (frames_offset self <= timestamp_offset self)%Q ->
  Forall ends_nonneg trace ->
  eviction_free trace self ->
  (frames_offset (run trace self) <= timestamp_offset (run trace self))%Q.
Proof.
  induction trace as [|e trace IH]; intros self Hinv Hends Hfree; [exact Hinv|].
  inversion Hends as [|? ? He Hends']; subst.
  destruct Hfree as [Hev Hfree].
  change (run (e :: trace) self) with (run trace (step self e)).
  apply IH; trivial. now apply step_keeps_cursor.
Qed.

Lemma cursor_not_behind_origin_without_eviction_witness :
  let s :=
    run [Ingest (frame 2); Iterate (Returns [hello; world]) (at_time 0);
         Ingest (frame 2)] (init one_line) in
  (timestamp_offset s = 1 /\ frames_offset s = 0)%Q /\
  (frames_offset s <= timestamp_offset s)%Q.
Proof.
  intros s. split.
  - vm_compute. split; reflexivity.
  - exact (cursor_not_behind_origin_without_eviction
             [Ingest (frame 2); Iterate (Returns [hello; world]) (at_time 0);
              Ingest (frame 2)] (init one_line)
             ltac:(now vm_compute)
             ltac:(repeat constructor; now vm_compute)
             ltac:(now vm_compute)).
Defined.

(** C1 as stated fails.  After fifty quiet seconds the cursor is at 25
    seconds (sample 400000 of the buffer) and the origin at 0.  The next
    append evicts the first 480000 samples, among them the 80000 samples at
    or after the cursor, and leaves the origin at 45 seconds, after the
    cursor. *)
Lemma eviction_overtakes_cursor :
  let before := run fifty_quiet_seconds (init one_line) in
  let after := add_frames (frame 10) before in
  ((frames_offset before <= timestamp_offset before)%Q /\
   int ((timestamp_offset before - frames_offset before) * inject_Z RATE)%Q
     = 25 * RATE /\
   buffered before - buffered (evict_history before) = 30 * RATE) /\
  (timestamp_offset after == 25)%Q /\
  frames_offset after = 45%Q /\
  (timestamp_offset after < frames_offset after)%Q.
Proof. vm_compute. repeat split; discriminate. Qed.

(** *** The 25-second window (C3) *)

(** C3 fails on the code.  In the state reached by fifty quiet seconds and
    one more frame, the cursor (25 s) is behind the origin (45 s) and 30
    seconds are buffered.  The test of line 142 slices with a negative
    index, sees the last 20 seconds and does not clip; line 146 clamps the
    same index to 0, and the whole buffer, 30 seconds, is submitted. *)
Theorem window_exceeds_25_seconds :
  let s := run (fifty_quiet_seconds ++ [Ingest (frame 10)]) (init one_line) in
  ((timestamp_offset s == 25)%Q /\ frames_offset s = 45%Q /\
   buffered s = 30 * RATE) /\
  int ((timestamp_offset s - frames_offset s) * inject_Z RATE)%Q = - (20 * RATE) /\
  option_map (fun frames => timestamp_offset (clip_audio frames s)) (frames_np s)
    = Some (timestamp_offset s) /\
  option_map len (input_sample s) = Some (30 * RATE) /\
  25 * RATE < 30 * RATE.
Proof. vm_compute. repeat split. Qed.

(** On a non-negative float [int] is the floor, so it only depends on the
    value of the rational, not on its representation. *)
Lemma int_floor (x : Q) : (0 <= x)%Q -> int x = Qfloor x.
Proof.
  destruct x as [a b]. unfold Qle, int, Qfloor. cbn [Qnum Qden].
  intros H. apply Z.quot_div_nonneg; lia.
Qed.

Lemma int_value (x : Q) (n : Z) : 0 <= n -> (x == inject_Z n)%Q -> int x = n.
Proof.
  intros Hn Hx. rewrite int_floor.
  - now rewrite Hx, Qfloor_Z.
  - rewrite Hx. change 0%Q with (inject_Z 0). now rewrite <- Zle_Qle.
Qed.

(** X18.  While the cursor is at or after the buffer origin, the window
    handed to the engine is at most 25 seconds long: either it is the chunk that
    passed the test, or the cursor was moved to 5 seconds before the end of
    the buffer. *)
Lemma window_at_most_25_seconds_inside_buffer self window :
  (frames_offset self <= timestamp_offset self)%Q ->
  input_sample self = Some window ->
  len window <= 25 * RATE.
Proof.
  intros Hinv. unfold input_sample.
  destruct (frames_np self) as [frames|]; [|discriminate].
  destruct (Qltb _ 1); [discriminate|]. intros [= <-].
  unfold clip_audio, input_bytes.
  set (x := ((timestamp_offset self - frames_offset self) * inject_Z RATE)%Q).
  assert (Hx : (0 <= x)%Q).
  { subst x. change (inject_Z RATE) with 16000%Q. nra. }
  destruct (Z.ltb_spec (25 * RATE) (len (slice_from (int x) frames))) as [H|H].
  - cbn [timestamp_offset frames_offset set_timestamp_offset].
    pose proof (len_slice_from_le (int x) frames) as Hle.
    set (y := ((frames_offset self + inject_Z (len frames) / inject_Z RATE - 5
                - frames_offset self) * inject_Z RATE)%Q).
    assert (Hy : (y == inject_Z (len frames - 5 * RATE))%Q).
    { subst y. unfold Z.sub. rewrite inject_Z_plus.
      change (inject_Z (- (5 * RATE))) with (- (80000))%Q.
      change (inject_Z RATE) with 16000%Q. field. }
    assert (Hmax : (Qmax 0 y == inject_Z (len frames - 5 * RATE))%Q).
    { rewrite Q.max_r; [exact Hy|].
      rewrite Hy. change 0%Q with (inject_Z 0).
      rewrite <- Zle_Qle. unfold RATE in *. lia. }
    rewrite (int_value _ (len frames - 5 * RATE)); trivial;
      [|unfold RATE in *; lia].
    rewrite len_slice_from_nonneg by (unfold RATE in *; lia).
    unfold RATE in *. lia.
  - fold x. rewrite int_floor by apply Q.le_max_l.
    rewrite Q.max_r by exact Hx.
    now rewrite <- int_floor.
Qed.

(** ** The formatter of a session (C9) *)

Lemma clip_audio_wrapper frames self :
  wrapper (clip_audio frames self) = wrapper self.
Proof. unfold clip_audio. now destruct (25 * RATE <? len _). Qed.

(** No step replaces the wrapper. *)
Lemma step_wrapper self e : wrapper (step self e) = wrapper self.
Proof.
  destruct e as [frame_np|r clk].
  - cbn [step]. unfold add_frames, evict_history.
    destruct (frames_np self) as [frames|] eqn:E.
    + destruct (45 * RATE <? len frames); cbn; [|rewrite E]; reflexivity.
    + rewrite E. reflexivity.
  - unfold step, speech_to_text_iter.
    destruct (frames_np self) as [frames|]; [|reflexivity].
    pose proof (clip_audio_wrapper frames self) as Hw.
    destruct (Qltb _ 1); [exact Hw|].
    destruct r as [|[|seg result]]; [exact Hw| |].
    + cbn [len List.length Z.of_nat Z.eqb negb].
      unfold empty_result.
      destruct (last_item (text (set_t_start _ (clip_audio frames self)))) as [l|];
        [destruct (negb (String.eqb l "") && Qltb _ _)|]; exact Hw.
    + replace (negb (len (seg :: result) =? 0)) with true
        by (unfold len; cbn [List.length];
            destruct (Z.eqb_spec (Z.of_nat (S (List.length result))) 0);
            [lia|reflexivity]).
      destruct (last_item (seg :: result)) as [tail|] eqn:E;
        [|now apply last_item_None in E].
      rewrite (update_segments_eq _ _ _ tail E). cbv zeta.
      destruct (5 <? _); exact Hw.
Qed.

(** A session keeps the wrapper [__init__] gave it: the [wrap] of a
    [TextWrapper] of width 50. *)
Lemma run_wrapper textwrap_wrap trace :
  wrapper (run trace (init textwrap_wrap)) = textwrap_wrap 50.
Proof.
  assert (H : forall self, wrapper (run trace self) = wrapper self).
  { induction trace as [|e trace IH]; intros self; [reflexivity|].
    change (run (e :: trace) self) with (run trace (step self e)).
    now rewrite IH, step_wrapper. }
  now rewrite H.
Qed.

(** C9.  In every state of a session, [fill_output] is a function of the
    committed lines and the provisional text alone: it takes the last 2
    committed lines, drops what precedes an empty-string sentinel among
    them, appends the provisional text, word-wraps at width 50 (the
    [TextWrapper] made by [__init__], which nothing replaces), and joins the
    last two wrapped lines with one space.  When the committed lines are
    ["a very long sentence exceeding fifty characters in total length"; ""]
    the first entry is discarded: only the provisional text is wrapped. *)
Theorem fill_output_renders_after_sentinel textwrap_wrap trace output :
  let self := run trace (init textwrap_wrap) in
  fill_output self output =
    OutputFormatter.render (textwrap_wrap 50) (text self) output /\
  (text self =
     ["a very long sentence exceeding fifty characters in total length"; ""] ->
   fill_output self output =
     String.concat " "
       (OutputFormatter.last_entries 2 (textwrap_wrap 50 output))).
Proof.
  intros self.
  assert (H : fill_output self output =
              OutputFormatter.render (textwrap_wrap 50) (text self) output).
  { rewrite fill_output_render. subst self. now rewrite run_wrapper. }
  split; [exact H|].
  intros Htext. rewrite H, Htext. reflexivity.
Qed.

Lemma fill_output_renders_after_sentinel_witness :
  let long :=
    "a very long sentence exceeding fifty characters in total length" in
  let self :=
    run [Ingest (frame 2);
         Iterate (Returns [Segment.mk long 0 1; world]) (at_time 0);
         Iterate (Returns []) (at_time 10);
         Iterate (Returns []) (at_time 14)] (init one_line) in
  text self = [long; ""] /\
  fill_output self " world" =
    String.concat " " (OutputFormatter.last_entries 2 (one_line 50 " world")).
Proof.
  intros long self.
  assert (Htext : text self = [long; ""]) by (vm_compute; reflexivity).
  split; [exact Htext|].
  exact (proj2 (fill_output_renders_after_sentinel one_line _ " world") Htext).
Defined.

(** * Further properties of the code *)

(** ** The recognition loop, case by case *)

(** What one iteration does to the session: nothing without frames; only
    the clipping when the window is too short or the engine raises;
    otherwise the empty-result branch or [update_segments] on a window of
    at least one second. *)
Lemma step_iterate_cases r clk self :
  (frames_np self = None /\ step self (Iterate r clk) = self) \/
  exists frames, frames_np self = Some frames /\
    let self1 := clip_audio frames self in
    let duration :=
      (inject_Z (len (input_bytes frames self1)) / inject_Z RATE)%Q in
    step self (Iterate r clk) = self1 \/
    (r = Returns [] /\ (1 <= duration)%Q /\
     step self (Iterate r clk) = fst (empty_result clk self1)) \/
    (exists tail result, r = Returns result /\
       last_item result = Some tail /\ (1 <= duration)%Q /\
       step self (Iterate r clk) =
       fst (update_segments result duration (set_t_start None self1))).
Proof.
  unfold step, speech_to_text_iter.
  destruct (frames_np self) as [frames|]; [right|now left].
  exists frames. split; [reflexivity|]. cbv zeta.
  destruct (Qltb _ 1) eqn:Hshort; [now left|].
  apply Qltb_false in Hshort.
  destruct r as [|[|seg result]]; [now left| |].
  - right. left. cbn [len List.length Z.of_nat Z.eqb negb].
    now destruct (empty_result clk (clip_audio frames self)).
  - right. right.
    replace (negb (len (seg :: result) =? 0)) with true
      by (unfold len; cbn [List.length];
          destruct (Z.eqb_spec (Z.of_nat (S (List.length result))) 0);
          [lia|reflexivity]).
    destruct (last_item (seg :: result)) as [tail|] eqn:E;
      [|now apply last_item_None in E].
    exists tail, (seg :: result). repeat split; trivial.
    destruct (update_segments (seg :: result) _ _) as [self2 [[output lines]|]];
      reflexivity.
Qed.

(** ** The transcript only grows *)

Lemma update_segments_text_grows segments duration self tail :
  last_item segments = Some tail ->
  exists added,
    text (fst (update_segments segments duration self)) =
    (text self ++ added)%list.
Proof.
  intros Htail. rewrite (update_segments_eq _ duration self tail Htail).
  cbv zeta.
  destruct (5 <? _); cbn [fst text]; [|eauto].
  destruct (match last_item _ with Some _ => _ | None => true end);
    [|eauto].
  rewrite <- app_assoc. eauto.
Qed.

Lemma step_text_grows self e :
  exists added, text (step self e) = (text self ++ added)%list.
Proof.
  destruct e as [frame_np|r clk].
  - exists []. cbn [step].
    destruct (add_frames_fields frame_np self) as (_ & -> & _).
    now rewrite app_nil_r.
  - destruct (step_iterate_cases r clk self)
      as [[_ ->]|(frames & _ & [->|[(_ & _ & ->)|(tail & result & _ & Ht & _ & ->)]])];
      try destruct (clip_audio_fields frames self) as (_ & _ & Hc & _).
    + exists []. now rewrite app_nil_r.
    + exists []. now rewrite Hc, app_nil_r.
    + unfold empty_result. cbn [fst text set_t_start]. rewrite Hc.
      destruct (last_item (text self)) as [l|];
        [destruct (negb (String.eqb l "") && Qltb _ _)|];
        cbn [text set_text set_t_start]; rewrite ?Hc;
        solve [eauto | exists []; now rewrite app_nil_r].
    + destruct (update_segments_text_grows result
                  (inject_Z (len (input_bytes frames (clip_audio frames self)))
                   / inject_Z RATE)%Q
                  (set_t_start None (clip_audio frames self)) tail Ht)
        as [added ->].
      cbn [text set_t_start]. rewrite Hc. eauto.
Qed.

(** X1.  Committed lines are never removed or rewritten: whatever frames
    arrive and whatever the engine answers, the committed lines at the start
    of a trace are a prefix of the committed lines at its end. *)
Theorem transcript_is_append_only trace self :
  exists added, text (run trace self) = (text self ++ added)%list.
Proof.
  revert self. induction trace as [|e trace IH]; intros self.
  - exists []. cbn. now rewrite app_nil_r.
  - change (run (e :: trace) self) with (run trace (step self e)).
    destruct (IH (step self e)) as [added2 ->].
    destruct (step_text_grows self e) as [added1 ->].
    exists (added1 ++ added2)%list. now rewrite app_assoc.
Qed.

(** ** The repeat count stays small *)

Lemma step_repeat_count self e :
  0 <= same_output_threshold self <= 5 ->
  0 <= same_output_threshold (step self e) <= 5.
Proof.
  intros Hc. destruct e as [frame_np|r clk].
  - cbn [step].
    now destruct (add_frames_fields frame_np self) as (_ & _ & _ & _ & _ & ->).
  - destruct (step_iterate_cases r clk self)
      as [[_ ->]|(frames & _ & [->|[(_ & _ & ->)|(tail & result & _ & Ht & _ & ->)]])];
      try destruct (clip_audio_fields frames self) as (_ & _ & _ & _ & _ & _ & Hn);
      trivial.
    + now rewrite Hn.
    + unfold empty_result.
      destruct (last_item _) as [l|];
        [destruct (negb (String.eqb l "") && Qltb _ _)|];
        cbn; now rewrite Hn.
    + rewrite (update_segments_eq _ _ _ tail Ht). cbv zeta.
      cbn [same_output_threshold prev_out set_t_start]. rewrite Hn.
      destruct (Z.ltb_spec 5
                  (if String.eqb (strip (Segment.text tail))
                        (strip (prev_out (clip_audio frames self)))
                      && negb (String.eqb (Segment.text tail) "")
                   then same_output_threshold self + 1 else 0)) as [H|H];
        cbn [fst same_output_threshold]; [lia|].
      destruct (String.eqb _ _ && negb _); lia.
Qed.

(** X2.  In every state of a session the repeat count lies between 0 and
    5: a count above 5 never outlives the call of [update_segments] that
    produced it. *)
Theorem repeat_count_at_most_5 textwrap_wrap trace :
  0 <= same_output_threshold (run trace (init textwrap_wrap)) <= 5.
Proof.
  assert (H : forall self, 0 <= same_output_threshold self <= 5 ->
                           0 <= same_output_threshold (run trace self) <= 5).
  { induction trace as [|e trace IH]; intros self Hc; [exact Hc|].
    change (run (e :: trace) self) with (run trace (step self e)).
    apply IH. now apply step_repeat_count. }
  apply H. cbn. lia.
Qed.

(** ** Clipping *)

(** When the test of line 142 fires, the cursor is set 5 seconds before the
    end of the buffer and the window is the last [5 * RATE] samples. *)
Lemma clip_fires frames self :
  25 * RATE <
    len (slice_from
           (int ((timestamp_offset self - frames_offset self) * inject_Z RATE)%Q)
           frames) ->
  clip_audio frames self =
    set_timestamp_offset
      (frames_offset self + inject_Z (len frames) / inject_Z RATE - 5)%Q self /\
  input_bytes frames (clip_audio frames self) =
    skipn (Z.to_nat (len frames - 5 * RATE)) frames /\
  len (skipn (Z.to_nat (len frames - 5 * RATE)) frames) = 5 * RATE.
Proof.
  intros H.
  pose proof (len_slice_from_le
                (int ((timestamp_offset self - frames_offset self)
                      * inject_Z RATE)%Q) frames) as Hle.
  assert (Hclip : clip_audio frames self =
    set_timestamp_offset
      (frames_offset self + inject_Z (len frames) / inject_Z RATE - 5)%Q self).
  { unfold clip_audio.
    now destruct (Z.ltb_spec (25 * RATE)
              (len (slice_from
                      (int ((timestamp_offset self - frames_offset self)
                            * inject_Z RATE)%Q) frames))) as [_|H']; [|lia]. }
  split; [exact Hclip|]. rewrite Hclip. unfold input_bytes.
  cbn [timestamp_offset frames_offset set_timestamp_offset].
  set (y := ((frames_offset self + inject_Z (len frames) / inject_Z RATE - 5
              - frames_offset self) * inject_Z RATE)%Q).
  assert (Hy : (y == inject_Z (len frames - 5 * RATE))%Q).
  { subst y. unfold Z.sub. rewrite inject_Z_plus.
    change (inject_Z (- (5 * RATE))) with (- (80000))%Q.
    change (inject_Z RATE) with 16000%Q. field. }
  assert (Hmax : (Qmax 0 y == inject_Z (len frames - 5 * RATE))%Q).
  { rewrite Q.max_r; [exact Hy|].
    rewrite Hy. change 0%Q with (inject_Z 0).
    rewrite <- Zle_Qle. unfold RATE in *. lia. }
  rewrite (int_value _ (len frames - 5 * RATE)); trivial;
    [|unfold RATE in *; lia].
  rewrite slice_from_nonneg by (unfold RATE in *; lia).
  split; [reflexivity|].
  rewrite len_skipn. unfold RATE in *. lia.
Qed.



(** ** Windows that reach the engine *)

(** X4.  The engine is never handed less than one second of audio: a
    submitted window holds at least [RATE] samples. *)
Theorem engine_gets_at_least_one_second self window :
  input_sample self = Some window -> RATE <= len window.
Proof.
  unfold input_sample.
  destruct (frames_np self) as [frames|]; [|discriminate].
  destruct (Qltb _ 1) eqn:Hshort; [discriminate|]. intros [= <-].
  apply Qltb_false in Hshort.
  set (w := input_bytes frames (clip_audio frames self)) in *.
  rewrite Zle_Qle. change (inject_Z RATE) with 16000%Q in *.
  set (n := inject_Z (len w)) in *.
  unfold Qdiv in Hshort. change (/ 16000)%Q with (1 # 16000)%Q in Hshort.
  lra.
Qed.

Lemma engine_gets_at_least_one_second_witness :
  RATE <= len (frame 2).
Proof.
  apply (engine_gets_at_least_one_second
           (set_frames_np (Some (frame 2)) (init one_line))).
  vm_cast_no_check (eq_refl (Some (frame 2))).
Defined.

(** X5.  An iteration that does not reach the engine (no frame yet, or less
    than one second from the cursor on) leaves the session exactly as it
    was, whatever the engine would have answered. *)
Theorem skipped_iteration_changes_nothing r clk self :
  input_sample self = None ->
  fst (speech_to_text_iter r clk self) = self /\
  (snd (speech_to_text_iter r clk self) = NoFrames \/
   snd (speech_to_text_iter r clk self) = TooShort).
Proof.
  unfold input_sample, speech_to_text_iter.
  destruct (frames_np self) as [frames|]; [|now auto].
  destruct (Qltb _ 1) eqn:Hshort; [intros _|discriminate].
  cbn [fst snd]. split; [|now right].
  unfold clip_audio.
  destruct (Z.ltb_spec (25 * RATE)
              (len (slice_from
                      (int ((timestamp_offset self - frames_offset self)
                            * inject_Z RATE)%Q) frames))) as [H|_];
    [|reflexivity].
  destruct (clip_fires frames self H) as (_ & Hinput & Hlen).
  rewrite Hinput, Hlen in Hshort. discriminate.
Qed.

Lemma skipped_iteration_changes_nothing_witness :
  let self := set_frames_np (Some (repeat 0%Q 100)) (init one_line) in
  fst (speech_to_text_iter (Returns [hello]) (at_time 0) self) = self.
Proof.
  intros self.
  apply (skipped_iteration_changes_nothing (Returns [hello]) (at_time 0) self).
  now vm_compute.
Defined.

(** ** The cursor only advances *)

(** Clipping moves the cursor forward, wherever the cursor was. *)
Lemma clip_audio_advances frames self :
  (timestamp_offset self <= timestamp_offset (clip_audio frames self))%Q.
Proof.
  unfold clip_audio.
  set (x := ((timestamp_offset self - frames_offset self) * inject_Z RATE)%Q).
  destruct (Z.ltb_spec (25 * RATE) (len (slice_from (int x) frames))) as [H|_];
    [|apply Qle_refl].
  cbn [timestamp_offset set_timestamp_offset].
  pose proof (len_slice_from_le (int x) frames) as Hle.
  assert (Hx : (x <= inject_Z (len frames) - 80000)%Q).
  { destruct (Qlt_le_dec x 0) as [Hneg|Hpos].
    - assert (Hn : 25 * RATE < len frames) by lia.
      rewrite Zlt_Qlt in Hn.
      change (inject_Z (25 * RATE)) with 400000%Q in Hn. lra.
    - assert (Hi : 0 <= int x).
      { rewrite int_floor by exact Hpos.
        change 0 with (Qfloor 0). now apply Qfloor_resp_le. }
      rewrite len_slice_from_nonneg in H by exact Hi.
      assert (Hn : int x + 1 <= len frames - 25 * RATE)
        by (unfold RATE in *; lia).
      rewrite int_floor in Hn by exact Hpos.
      rewrite Zle_Qle in Hn. unfold Z.sub in Hn.
      rewrite !inject_Z_plus in Hn.
      change (inject_Z (- (25 * RATE))) with (- (400000))%Q in Hn.
      change (inject_Z 1) with 1%Q in Hn.
      pose proof (Qlt_floor x) as Hfl. rewrite inject_Z_plus in Hfl.
      change (inject_Z 1) with 1%Q in Hfl. lra. }
  subst x. change (inject_Z RATE) with 16000%Q in *.
  set (n := inject_Z (len frames)) in *.
  unfold Qdiv. change (/ 16000)%Q with (1 # 16000)%Q. lra.
Qed.

Lemma step_cursor_advances self e :
  ends_nonneg e ->
  (timestamp_offset self <= timestamp_offset (step self e))%Q.
Proof.
  intros Hends. destruct e as [frame_np|r clk].
  - cbn [step]. destruct (add_frames_fields frame_np self) as (-> & _).
    apply Qle_refl.
  - pose proof (fun frames => clip_audio_advances frames self) as Hclip.
    destruct (step_iterate_cases r clk self)
      as [[_ ->]|(frames & _ & [->|[(_ & _ & ->)|(tail & result & -> & Ht & Hd & ->)]])];
      [apply Qle_refl | apply Hclip | |].
    + unfold empty_result.
      destruct (last_item _) as [l|];
        [destruct (negb (String.eqb l "") && Qltb _ _)|]; apply Hclip.
    + cbn [ends_nonneg] in Hends.
      set (duration := (inject_Z (len (input_bytes frames (clip_audio frames self)))
                        / inject_Z RATE)%Q) in *.
      destruct (update_segments_cursor result duration
                  (set_t_start None (clip_audio frames self)) tail Ht)
        as [_ Hts]; [lra | exact Hends |].
      cbn [timestamp_offset set_t_start] in Hts.
      specialize (Hclip frames). lra.
Qed.

(** X6.  The cursor never moves backwards: for an engine that reports
    non-negative end offsets, the cursor at the end of a trace is at or
    after the cursor at its start, evictions included. *)
Theorem cursor_never_moves_back trace : forall self,
  Forall ends_nonneg trace ->
  (timestamp_offset self <= timestamp_offset (run trace self))%Q.
Proof.
  induction trace as [|e trace IH]; intros self Hends; [apply Qle_refl|].
  inversion Hends as [|? ? He Hends']; subst.
  change (run (e :: trace) self) with (run trace (step self e)).
  apply Qle_trans with (timestamp_offset (step self e)).
  - now apply step_cursor_advances.
  - now apply IH.
Qed.

Lemma cursor_never_moves_back_witness :
  (timestamp_offset (init one_line)
   <= timestamp_offset
        (run (fifty_quiet_seconds ++ [Ingest (frame 10)]) (init one_line)))%Q.
Proof.
  apply (cursor_never_moves_back
           (fifty_quiet_seconds ++ [Ingest (frame 10)]) (init one_line)).
  repeat constructor.
Defined.

(** ** What [update_segments] commits and emits *)

(** X7.  On a non-empty result [update_segments] returns normally, and the
    lines it appends to the committed lines are exactly the texts of the
    transcript lines it emits, in the same order.  No emitted line ends
    after the end of the window (the cursor plus the window duration), and
    the returned text is [fill_output] of the provisional text on the
    updated session. *)
Theorem update_segments_commits_what_it_emits segments duration self :
  segments <> [] ->
  exists self' lines,
    update_segments segments duration self =
      (self', Some (fill_output self' (current_out self'), lines)) /\
    text self' = (text self ++ map Line.text lines)%list /\
    Forall (fun l => (Line.end_ l <= timestamp_offset self + duration)%Q) lines.
Proof.
  intros Hne.
  destruct (last_item segments) as [tail|] eqn:Htail;
    [|now apply last_item_None in Htail].
  rewrite (update_segments_eq _ duration self tail Htail). cbv zeta.
  assert (Hcomplete : forall complete,
            map Line.text (map (line_of (timestamp_offset self) duration) complete)
              = map Segment.text complete /\
            Forall (fun l => (Line.end_ l <= timestamp_offset self + duration)%Q)
              (map (line_of (timestamp_offset self) duration) complete)).
  { induction complete as [|s complete [IHt IHf]]; [now split|].
    split; cbn [map line_of Line.text]; [now rewrite IHt|].
    constructor; [|exact IHf]. unfold line_of. cbn [Line.end_].
    pose proof (Q.le_min_l duration (Segment.end_ s)). lra. }
  destruct (Hcomplete (all_but_last segments)) as [Htexts Hends].
  destruct (5 <? _).
  - destruct (match last_item _ with Some _ => _ | None => true end).
    + match goal with
      | |- exists s l, (?a, Some (_, ?t)) = _ /\ _ => exists a, t
      end; split; [reflexivity|]. cbn [text]. split.
      * rewrite map_app, Htexts. cbn [map Line.text].
        now rewrite app_assoc.
      * apply Forall_app. split; [exact Hends|].
        constructor; [|constructor]. cbn [Line.end_]. lra.
    + match goal with
      | |- exists s l, (?a, Some (_, ?t)) = _ /\ _ => exists a, t
      end; split; [reflexivity|]. cbn [text].
      now rewrite Htexts.
  - match goal with
      | |- exists s l, (?a, Some (_, ?t)) = _ /\ _ => exists a, t
      end; split; [reflexivity|]. cbn [text]. now rewrite Htexts.
Qed.

Lemma update_segments_commits_what_it_emits_witness :
  exists self' lines,
    update_segments [hello; world] 2 (init one_line) =
      (self', Some (fill_output self' (current_out self'), lines)) /\
    text self' = (text (init one_line) ++ map Line.text lines)%list /\
    Forall (fun l => (Line.end_ l <= timestamp_offset (init one_line) + 2)%Q)
      lines.
Proof.
  apply (update_segments_commits_what_it_emits [hello; world] 2 (init one_line)).
  discriminate.
Defined.

(** ** What the formatter looks at *)

Lemma last_entries_app2 {A : Type} (older : list A) (a b : A) :
  OutputFormatter.last_entries 2 (older ++ [a; b]) = [a; b].
Proof.
  unfold OutputFormatter.last_entries. rewrite length_app. cbn [List.length].
  replace (List.length older + 2 - 2)%nat with (List.length older) by lia.
  now rewrite skipn_app, skipn_all, Nat.sub_diag.
Qed.

(** X8.  The displayed text depends on the last two committed lines only:
    any number of older lines can be dropped without changing it. *)
Theorem fill_output_uses_last_two_lines self older a b output :
  fill_output (set_text (older ++ [a; b]) self) output =
  fill_output (set_text [a; b] self) output.
Proof.
  unfold fill_output. cbn [text wrapper set_text].
  rewrite !slice_pick_prev, last_entries_app2. reflexivity.
Qed.

(** X9.  Right after a pause sentinel the committed lines are not shown at
    all: the displayed text is made of the provisional text alone. *)
Theorem fill_output_blank_after_sentinel self older output :
  fill_output (set_text (older ++ [""]) self) output =
  String.concat " " (OutputFormatter.last_entries 2 (wrapper self output)).
Proof.
  unfold fill_output. cbn [text wrapper set_text].
  rewrite slice_pick_prev, slice_last_two.
  assert (H : fill_loop "" (OutputFormatter.last_entries 2 (older ++ [""])) = "").
  { unfold OutputFormatter.last_entries. rewrite length_app. cbn [List.length].
    destruct older as [|x older] using rev_ind; [reflexivity|].
    rewrite length_app. cbn [List.length].
    replace (List.length older + 1 + 1 - 2)%nat
      with (List.length older) by lia.
    rewrite <- app_assoc, skipn_app, skipn_all, Nat.sub_diag.
    cbn [skipn app fill_loop].
    now destruct (String.eqb x ""). }
  now rewrite H.
Qed.

(** ** The buffer and the stream *)

Lemma buffer_add_frames frame_np self :
  buffer (add_frames frame_np self) =
  ((if evicts self (Ingest frame_np)
    then skipn (Z.to_nat (30 * RATE)) (buffer self) else buffer self)
   ++ frame_np)%list /\
  frames_offset (add_frames frame_np self) =
  (if evicts self (Ingest frame_np)
   then (frames_offset self + 45)%Q else frames_offset self) /\
  (evicts self (Ingest frame_np) = true -> 30 * RATE <= len (buffer self)).
Proof.
  unfold add_frames, evict_history, buffer, evicts.
  destruct (frames_np self) as [frames|] eqn:E.
  - destruct (Z.ltb_spec (45 * RATE) (len frames)) as [H|H].
    + cbn. rewrite slice_from_nonneg by (unfold RATE; lia).
      repeat split. unfold RATE in *. lia.
    + rewrite E. cbn. repeat split. discriminate.
  - rewrite E. cbn. repeat split. discriminate.
Qed.

Lemma evictions_nonneg trace : forall self, 0 <= evictions trace self.
Proof.
  induction trace as [|e trace IH]; intros self; cbn [evictions]; [lia|].
  specialize (IH (step self e)). destruct (evicts self e); lia.
Qed.

Lemma buffer_suffix trace : forall self,
  buffer (run trace self) =
  skipn (Z.to_nat (30 * RATE * evictions trace self))
    (buffer self ++ ingested trace).
Proof.
  induction trace as [|e trace IH]; intros self.
  - cbn. now rewrite app_nil_r.
  - change (run (e :: trace) self) with (run trace (step self e)).
    rewrite IH. cbn [evictions].
    pose proof (evictions_nonneg trace (step self e)) as Hk.
    destruct e as [frame_np|r clk].
    + cbn [step ingested] in *.
      destruct (buffer_add_frames frame_np self) as (-> & _ & Hlen).
      destruct (evicts self (Ingest frame_np)).
      * replace (Z.to_nat (30 * RATE * (1 + evictions trace (add_frames frame_np self))))
          with (Z.to_nat (30 * RATE * evictions trace (add_frames frame_np self))
                + Z.to_nat (30 * RATE))%nat
          by (unfold RATE in *; lia).
        rewrite <- skipn_skipn. f_equal.
        rewrite <- app_assoc, skipn_app.
        replace (Z.to_nat (30 * RATE) - List.length (buffer self))%nat with 0%nat
          by (specialize (Hlen eq_refl); unfold len, RATE in *; lia).
        reflexivity.
      * now rewrite <- app_assoc.
    + assert (Hb : buffer (step self (Iterate r clk)) = buffer self)
        by (unfold buffer; now destruct (iter_buffer r clk self) as [-> _]).
      cbn [ingested evicts]. now rewrite Hb, Z.add_0_l.
Qed.

(** X10.  The buffer always holds the most recent samples of the stream,
    in the order they arrived: it is what the transport delivered since
    the session began, without the first 30 seconds for each eviction so
    far.  No sample is duplicated, reordered or dropped from the middle. *)
Theorem buffer_is_suffix_of_stream textwrap_wrap trace :
  buffer (run trace (init textwrap_wrap)) =
  skipn (Z.to_nat (30 * RATE * evictions trace (init textwrap_wrap)))
    (ingested trace).
Proof. now rewrite buffer_suffix. Qed.

Lemma origin_after trace : forall self,
  (frames_offset (run trace self) ==
   frames_offset self + inject_Z (45 * evictions trace self))%Q.
Proof.
  induction trace as [|e trace IH]; intros self.
  - cbn [run fold_left evictions].
    change (inject_Z (45 * 0)) with 0%Q. lra.
  - change (run (e :: trace) self) with (run trace (step self e)).
    rewrite IH. cbn [evictions].
    rewrite Z.mul_add_distr_l, inject_Z_plus.
    destruct e as [frame_np|r clk].
    + cbn [step]. destruct (buffer_add_frames frame_np self) as (_ & -> & _).
      destruct (evicts self (Ingest frame_np)).
      * change (inject_Z (45 * 1)) with 45%Q. lra.
      * change (inject_Z (45 * 0)) with 0%Q. lra.
    + cbn [evicts]. destruct (iter_buffer r clk self) as [_ ->].
      change (inject_Z (45 * 0)) with 0%Q. lra.
Qed.

(** X11.  The buffer origin is 45 seconds times the number of evictions so
    far: every eviction adds 45.0 to it, and nothing else changes it. *)
Theorem origin_is_45_per_eviction textwrap_wrap trace :
  (frames_offset (run trace (init textwrap_wrap)) ==
   inject_Z (45 * evictions trace (init textwrap_wrap)))%Q.
Proof. rewrite origin_after. cbn [frames_offset init]. lra. Qed.

(** ** What an empty result sends *)



(** ** The receive loop *)

Lemma frombuffer_length float32 n : forall frame_data,
  (List.length frame_data <= n)%nat ->
  match frombuffer float32 frame_data with
  | Some frame_np => List.length frame_data = (4 * List.length frame_np)%nat
  | None => (List.length frame_data mod 4 <> 0)%nat
  end.
Proof.
  induction n as [|n IH]; intros frame_data Hn.
  - destruct frame_data; [reflexivity|cbn in Hn; lia].
  - destruct frame_data as [|b0 [|b1 [|b2 [|b3 rest]]]];
      try reflexivity; try (cbn; discriminate).
    cbn [frombuffer]. specialize (IH rest).
    destruct (frombuffer float32 rest) as [frame_np|]; cbn [option_map].
    + cbn [List.length] in *. rewrite IH by lia. lia.
    + cbn [List.length] in *.
      replace (S (S (S (S (List.length rest)))))
        with (List.length rest + 1 * 4)%nat by lia.
      rewrite Nat.Div0.mod_add. apply IH. lia.
Qed.

Lemma frombuffer_rejects float32 frame_data :
  (List.length frame_data mod 4 <> 0)%nat ->
  frombuffer float32 frame_data = None.
Proof.
  intros Hlen.
  pose proof (frombuffer_length float32 (List.length frame_data) frame_data
                (Nat.le_refl _)) as H.
  destruct (frombuffer float32 frame_data) as [frame_np|]; [|reflexivity].
  exfalso. apply Hlen. rewrite H, Nat.mul_comm. apply Nat.Div0.mod_mul.
Qed.

(** X13.  Receiving never touches what the recognition loop owns: the
    cursor, the committed lines, the provisional text, the remembered
    candidate, the repeat count and the start of the pause are after
    [recv_audio]'s loop what they were before it, whatever was received. *)
Theorem recv_loop_keeps_transcript float32 inbox : forall client,
  let client' := fst (recv_loop float32 inbox client) in
  timestamp_offset client' = timestamp_offset client /\
  text client' = text client /\
  current_out client' = current_out client /\
  prev_out client' = prev_out client /\
  t_start client' = t_start client /\
  same_output_threshold client' = same_output_threshold client.
Proof.
  induction inbox as [|[message|frame_data| |] inbox IH]; intros client;
    cbn [recv_loop]; try (cbn; tauto).
  - apply IH.
  - destruct (frombuffer float32 frame_data) as [frame_np|]; [|cbn; tauto].
    destruct (add_frames_fields frame_np client) as (H1 & H2 & H3 & H4 & H5 & H6).
    specialize (IH (add_frames frame_np client)). cbv zeta in IH.
    rewrite H1, H2, H3, H4, H5, H6 in IH. exact IH.
Qed.

(** X14.  Text messages are only logged: removing them from what was
    received changes neither the session nor how the loop ends. *)
Theorem recv_audio_ignores_text float32 textwrap_wrap inbox :
  recv_audio float32 textwrap_wrap (filter (fun m => negb (is_str m)) inbox) =
  recv_audio float32 textwrap_wrap inbox.
Proof.
  unfold recv_audio. generalize (init textwrap_wrap).
  induction inbox as [|[message|frame_data| |] inbox IH]; intros client;
    cbn [filter is_str negb recv_loop]; trivial.
  destruct (frombuffer float32 frame_data); [apply IH|reflexivity].
Qed.

(** X15.  The loop stops at the first end of connection or failure.  If
    everything before it was processed, a normal close returns with the
    session as it was then, and a binary message whose length is not a
    multiple of 4 bytes, or any other exception of [recv], leaves the loop
    by an exception with the frames received before it kept; whatever
    comes after is never looked at. *)
Theorem recv_loop_stops float32 before after client :
  snd (recv_loop float32 before client) = Receiving ->
  let client' := fst (recv_loop float32 before client) in
  recv_loop float32 (before ++ ConnectionClosedOK :: after) client
    = (client', Returned) /\
  recv_loop float32 (before ++ OtherException :: after) client
    = (client', Raised) /\
  (forall frame_data, (List.length frame_data mod 4 <> 0)%nat ->
     recv_loop float32 (before ++ Bytes frame_data :: after) client
       = (client', Raised)).
Proof.
  revert client.
  induction before as [|[message|frame_data| |] before IH]; intros client;
    cbn [recv_loop app]; try discriminate.
  - intros _. cbn [fst]. repeat split.
    intros frame_data Hlen.
    now rewrite (frombuffer_rejects float32 frame_data Hlen).
  - apply IH.
  - destruct (frombuffer float32 frame_data) as [frame_np|]; [apply IH|].
    discriminate.
Qed.

Lemma recv_loop_stops_witness :
  let float32 := fun _ _ _ _ : Byte.byte => 0%Q in
  let before := [Str "hello"; Bytes (repeat Byte.x00 8)] in
  let client := init one_line in
  recv_loop float32 (before ++ ConnectionClosedOK :: [Bytes (repeat Byte.x00 4)])
    client = (fst (recv_loop float32 before client), Returned) /\
  buffered (fst (recv_loop float32 before client)) = 2.
Proof.
  intros float32 before client. split.
  - apply (recv_loop_stops float32 before [Bytes (repeat Byte.x00 4)] client).
    reflexivity.
  - reflexivity.
Defined.

(** ** More on the stabiliser *)

(** X16.  One call of [update_segments] moves the cursor forward by at most
    the duration of the window, and never backwards when the engine's end
    offsets are non-negative. *)
Theorem update_segments_cursor_within_window segments duration self :
  (0 <= duration)%Q ->
  Forall (fun s => (0 <= Segment.end_ s)%Q) segments ->
  let self' := fst (update_segments segments duration self) in
  (timestamp_offset self <= timestamp_offset self')%Q /\
  (timestamp_offset self' <= timestamp_offset self + duration)%Q.
Proof.
  intros Hd Hends.
  destruct (last_item segments) as [tail|] eqn:Htail.
  - rewrite (update_segments_eq _ duration self tail Htail). cbv zeta.
    destruct (5 <? _); cbn [fst timestamp_offset]; [split; lra|].
    destruct (last_item (all_but_last segments)) as [s|] eqn:E; [|split; lra].
    assert (Hs : (0 <= Segment.end_ s)%Q).
    { rewrite Forall_forall in Hends. apply Hends.
      apply all_but_last_In. now apply last_item_In. }
    pose proof (Q.min_glb duration (Segment.end_ s) 0 Hd Hs).
    pose proof (Q.le_min_l duration (Segment.end_ s)). split; lra.
  - apply last_item_None in Htail. subst segments.
    change (fst (update_segments [] duration self))
      with (set_current_out "" self).
    cbn [timestamp_offset set_current_out]. split; lra.
Qed.

Lemma update_segments_cursor_within_window_witness :
  let self' := fst (update_segments [hello; world] 2 (init one_line)) in
  (timestamp_offset (init one_line) <= timestamp_offset self')%Q /\
  (timestamp_offset self' <= timestamp_offset (init one_line) + 2)%Q.
Proof.
  apply (update_segments_cursor_within_window [hello; world] 2 (init one_line)).
  - now vm_compute.
  - repeat constructor; now vm_compute.
Defined.

(** X17.  A candidate that stays stuck is committed once only.  When the
    last committed line already equals the remembered candidate (up to
    whitespace and case) and the count is 0, as it is right after a
    promotion, six more cycles returning the candidate trigger another
    promotion that commits and emits nothing; it only advances the cursor
    by the window duration and resets the count. *)
Theorem stuck_candidate_is_committed_once c self l repeats last :
  strip (prev_out self) = strip c ->
  same_output_threshold self = 0 ->
  last_item (text self) = Some l ->
  lower (strip l) = lower (strip c) ->
  Forall (same_candidate c) repeats ->
  List.length repeats = 5%nat ->
  same_candidate c last ->
  let r := feed (map single (repeats ++ [last])) self in
  snd r = [] /\
  text (fst r) = text self /\
  timestamp_offset (fst r) = (timestamp_offset self + snd last)%Q /\
  same_output_threshold (fst r) = 0 /\
  current_out (fst r) = "".
Proof.
  intros Hprev Hcount Hlast Hdup Hrep Hlen [Hl Hlne] r.
  destruct last as [s6 d6]. cbn [fst snd] in *.
  destruct (feed_repeats c repeats self Hrep Hprev) as (Hl5 & Ht5 & Hts5 & Hc5 & Hp5).
  { rewrite Hcount, Hlen. lia. }
  rewrite Hcount, Hlen in Hc5.
  subst r. rewrite map_app, feed_app.
  destruct (feed (map single repeats) self) as [self5 lines5].
  cbn [fst snd] in *. subst lines5.
  cbn [map single fst snd feed].
  rewrite (update_segments_eq [s6] d6 self5 s6 eq_refl). cbv zeta.
  rewrite Hl, Hp5, String.eqb_refl.
  apply String.eqb_neq in Hlne. rewrite Hlne. cbn [negb andb].
  rewrite Hc5. change (5 <? 0 + Z.of_nat 5 + 1) with true.
  cbn [all_but_last removelast map]. rewrite app_nil_r, Ht5, Hts5, Hlast.
  rewrite Hdup, String.eqb_refl. cbn. repeat split.
Qed.

Lemma stuck_candidate_is_committed_once_witness :
  let self :=
    mkServeClient 2 None 0 ["hello"] "" "hello" None 0 (one_line 50) in
  let r := feed (map single (repeat (hello, 2%Q) 5 ++ [(hello, 2%Q)])) self in
  snd r = [] /\
  text (fst r) = text self /\
  timestamp_offset (fst r) = (timestamp_offset self + 2)%Q /\
  same_output_threshold (fst r) = 0 /\
  current_out (fst r) = "".
Proof.
  apply (stuck_candidate_is_committed_once "hello"
           (mkServeClient 2 None 0 ["hello"] "" "hello" None 0 (one_line 50))
           "hello" (repeat (hello, 2%Q) 5) (hello, 2%Q)).
  - reflexivity.
  - reflexivity.
  - reflexivity.
  - reflexivity.
  - repeat constructor; discriminate.
  - reflexivity.
  - split; [reflexivity | discriminate].
Defined.

(** ** The window while the cursor is inside the buffer *)

Lemma window_at_most_25_seconds_inside_buffer_witness :
  len (skipn (Z.to_nat (25 * RATE)) (frame 30)) <= 25 * RATE.
Proof.
  apply (window_at_most_25_seconds_inside_buffer
           (set_frames_np (Some (frame 30)) (init one_line))).
  - now vm_compute.
  - vm_cast_no_check (eq_refl (Some (skipn (Z.to_nat (25 * RATE)) (frame 30)))).
Defined.
